(** * fileshare: the Google Drive synchronisation engine of [src/fileshare/main.py]

    A shallow embedding of the tracking, untracking, push/pull and
    conflict-resolution code of [DriveBrowser], followed by the properties
    of the engine.

    Modelling conventions
    - Python exceptions are values of [exn]; a computation is a function
      from the program state to a new state and either a value or a raised
      exception ([M]).  [try_except] is [try: ... except Exception: ...].
    - The Drive service ([self.service]) is an interface: a type of remote
      states and one function per request the code sends.  Every request may
      change the remote state and may raise.  All engine definitions are
      parametric in it; [Module MemDrive] gives an in-memory implementation
      used for the scenarios.
    - The local file system is a finite map from path strings to nodes.
      Paths are compared as strings (the engine builds every path with
      [os.path.join], POSIX flavour), so the map stands for the real
      directory tree where paths are plain ([plain_path]: relative, every
      component a name, none of them empty, [.] or [..]) and is not meant
      to where they are not: a statement about which files an operation
      deletes is made for plain paths.  The local failures that the file
      system itself determines are modelled ([open] on a directory,
      [os.makedirs] through a regular file, [os.remove] on a directory,
      [shutil.rmtree] on a regular file, reading a directory); disk-full or
      permission failures are not.
    - [self.sync_status] is an insertion-ordered dictionary, kept as an
      association list; [sync_status.json] holds the last saved copy.
    - The widgets are not modelled: a status written to the tree view (also
      through [self.after]) and a message box are appended to [gui].
    - [hashlib.sha1] and [datetime.fromisoformat] are parameters.
    - [time.time()] reads [clock]; the float is kept as an integer. *)

From stdpp Require Import gmap strings list fin_maps pretty.
From Stdlib Require Import ZArith Ascii String.

Local Open Scope string_scope.
Local Open Scope Z_scope.

(** ** Constants *)

Definition SYNC_DIR : string := "synced_files".
Definition FOLDER_MIME : string := "application/vnd.google-apps.folder".
Definition PAGE_SIZE : nat := 100.

(** ** Exceptions and results *)

Inductive exn : Type :=
  | HttpError              (* a Drive request failed *)
  | FileNotFoundError
  | FileExistsError
  | IsADirectoryError
  | NotADirectoryError
  | ValueError             (* datetime.fromisoformat on a malformed string *)
  | TypeError              (* comparing a naive and an aware datetime *)
  | KeyError               (* d[k] on a missing key *)
  | RecursionError.

Inductive res (A : Type) : Type :=
  | Ok (a : A)
  | Raise (e : exn).
Arguments Ok {A} a.
Arguments Raise {A} e.

(** ** Paths ([os.path], POSIX) *)

Definition slash : ascii := "/"%char.

Definition is_slash (c : ascii) : bool := Ascii.eqb c slash.

Definition startswith_sep (s : string) : bool :=
  match s with
  | String c _ => is_slash c
  | EmptyString => false
  end.

Fixpoint endswith_sep (s : string) : bool :=
  match s with
  | EmptyString => false
  | String c EmptyString => is_slash c
  | String _ r => endswith_sep r
  end.

(** [os.path.join(a, b)] *)
Definition os_path_join (a b : string) : string :=
  if startswith_sep b then b
  else if bool_decide (a = "") || endswith_sep a then a ++ b
  else a ++ "/" ++ b.

(** [p[:p.rfind('/') + 1]], [None] when [p] has no separator *)
Fixpoint head_to_last_sep (p : string) : option string :=
  match p with
  | EmptyString => None
  | String c r =>
      match head_to_last_sep r with
      | Some h => Some (String c h)
      | None => if is_slash c then Some (String c EmptyString) else None
      end
  end.

(** [s.rstrip('/')] *)
Fixpoint rstrip_sep (s : string) : string :=
  match s with
  | EmptyString => EmptyString
  | String c r =>
      let r' := rstrip_sep r in
      if is_slash c && bool_decide (r' = "") then EmptyString else String c r'
  end.

(** [os.path.dirname(p)] *)
Definition os_path_dirname (p : string) : string :=
  match head_to_last_sep p with
  | None => ""
  | Some head => if bool_decide (rstrip_sep head = "") then head else rstrip_sep head
  end.

(** The directories on the way to [p], outermost first, [p] itself last. *)
Fixpoint components_from (acc p : string) : list string :=
  match p with
  | EmptyString => if bool_decide (acc = "") then [] else [acc]
  | String c r =>
      if is_slash c
      then (if bool_decide (acc = "") then [] else [acc])
             ++ components_from (acc ++ "/") r
      else components_from (acc ++ String c EmptyString) r
  end.

Definition path_chain (p : string) : list string := components_from "" p.

(** [p] lies strictly below directory [root]. *)
Definition under (root p : string) : bool := String.prefix (root ++ "/") p.

(** [p.split('/')] *)
Fixpoint split_sep_from (acc p : string) : list string :=
  match p with
  | EmptyString => [acc]
  | String c r =>
      if is_slash c then acc :: split_sep_from "" r
      else split_sep_from (acc ++ String c EmptyString) r
  end.

Definition split_sep (p : string) : list string := split_sep_from "" p.

(** A component that names an entry of its directory. *)
Definition plain_component (c : string) : bool :=
  negb (bool_decide (c = "")) && negb (bool_decide (c = "."))
  && negb (bool_decide (c = "..")).

(** A relative path that is its own normal form: no leading, trailing or
    doubled separator, no [.] and no [..]. *)
Definition plain_path (p : string) : bool := forallb plain_component (split_sep p).

(** ["/".join(l)] *)
Fixpoint join_sep (l : list string) : string :=
  match l with
  | [] => ""
  | [c] => c
  | c :: rest => c ++ "/" ++ join_sep rest
  end.

(** ** The local file system *)

Inductive node : Type :=
  | File (content : list Byte.byte)
  | Dir.

Definition is_file (o : option node) : bool :=
  match o with Some (File _) => true | _ => false end.

Definition is_dir (o : option node) : bool :=
  match o with Some Dir => true | _ => false end.

(** Some directory on the way to [p] (or [p] itself) is a regular file. *)
Definition through_file (fs : gmap string node) (p : string) : bool :=
  existsb (fun a => is_file (fs !! a)) (path_chain p).

(** [os.makedirs(p, exist_ok=True)]: [mkdir] finds a regular file at [p]
    itself ([FileExistsError], which [exist_ok] lets pass for directories
    only) or on the way to it ([NotADirectoryError]). *)
Definition fs_makedirs (p : string) (fs : gmap string node) : res (gmap string node) :=
  if bool_decide (p = "") then Raise FileNotFoundError
  else if through_file fs p then
    if is_file (fs !! p) then Raise FileExistsError else Raise NotADirectoryError
  else Ok (foldr (fun a m => <[a := Dir]> m) fs (path_chain p)).

(** The last component of [p] is empty, [.] or [..]: [p] can only name a
    directory. *)
Definition names_directory (p : string) : bool :=
  negb (plain_component (List.last (split_sep p) "")).

(** [open(p, "wb")]: creates or truncates the file.  The directory of a
    path without separator is the working directory. *)
Definition fs_open_wb (p : string) (fs : gmap string node) : res (gmap string node) :=
  if bool_decide (p = "") then Raise FileNotFoundError
  else if is_dir (fs !! p) then Raise IsADirectoryError
  else if bool_decide (os_path_dirname p = "") || is_dir (fs !! os_path_dirname p) then
    if names_directory p then Raise IsADirectoryError
    else Ok (<[p := File []]> fs)
  else if through_file fs (os_path_dirname p) then Raise NotADirectoryError
  else Raise FileNotFoundError.

(** [open(p, "rb").read()] *)
Definition fs_read (p : string) (fs : gmap string node) : res (list Byte.byte) :=
  match fs !! p with
  | Some (File bs) => Ok bs
  | Some Dir => Raise IsADirectoryError
  | None => if through_file fs p then Raise NotADirectoryError else Raise FileNotFoundError
  end.

(** [os.path.exists(p)] *)
Definition fs_exists (p : string) (fs : gmap string node) : bool :=
  bool_decide (is_Some (fs !! p)).

(** [os.remove(p)] *)
Definition fs_remove (p : string) (fs : gmap string node) : res (gmap string node) :=
  match fs !! p with
  | Some (File _) => Ok (delete p fs)
  | Some Dir => Raise IsADirectoryError
  | None => if through_file fs p then Raise NotADirectoryError else Raise FileNotFoundError
  end.

Definition outside (root : string) (kv : string * node) : Prop :=
  kv.1 ≠ root ∧ under root kv.1 = false.

#[global] Instance outside_dec root kv : Decision (outside root kv).
Proof. unfold outside. apply _. Defined.

(** [shutil.rmtree(p)] *)
Definition fs_rmtree (p : string) (fs : gmap string node) : res (gmap string node) :=
  match fs !! p with
  | Some Dir => Ok (filter (outside p) fs)
  | Some (File _) => Raise NotADirectoryError
  | None => if through_file fs p then Raise NotADirectoryError else Raise FileNotFoundError
  end.

(** Every entry sits at a plain path: the map describes a directory tree. *)
Definition plain_fs (fs : gmap string node) : Prop :=
  map_Forall (fun p _ => plain_path p = true) fs.

(** ** Time stamps *)

(** A parsed [datetime]: an instant, and whether it carries a UTC offset. *)
Record datetime : Type := mkDatetime { instant : Z; aware : bool }.

(** [a > b] on datetimes; Python refuses to compare naive with aware. *)
Definition datetime_gt (a b : datetime) : res bool :=
  if Bool.eqb (aware a) (aware b) then Ok (instant b <? instant a)
  else Raise TypeError.

(** [s.replace('Z', '+00:00')] *)
Fixpoint replace_Z (s : string) : string :=
  match s with
  | EmptyString => EmptyString
  | String c r =>
      if Ascii.eqb c "Z"%char then "+00:00" ++ replace_Z r
      else String c (replace_Z r)
  end.

(** ** Sync records and the status dictionary *)

Record SyncRecord : Type := mkRecord {
  name : string;
  is_folder : bool;
  local_path : string;
  last_synced_time : Z;
  remote_modified_time : string;
  local_hash_at_sync : option string;      (* [None] is Python's None *)
  drive_root_id : string;
  drive_relative_path : string
}.

#[global] Instance SyncRecord_eq_dec : EqDecision SyncRecord.
Proof. solve_decision. Defined.

(** A dictionary in insertion order. *)
Definition dict (V : Type) : Type := list (string * V).

Fixpoint dict_get {V} (k : string) (d : dict V) : option V :=
  match d with
  | [] => None
  | (k', v) :: d' => if bool_decide (k' = k) then Some v else dict_get k d'
  end.

Definition dict_mem {V} (k : string) (d : dict V) : bool :=
  match dict_get k d with Some _ => true | None => false end.

(** [d[k] = v]: an existing key keeps its position, a new key goes last. *)
Fixpoint dict_set {V} (k : string) (v : V) (d : dict V) : dict V :=
  match d with
  | [] => [(k, v)]
  | (k', v') :: d' =>
      if bool_decide (k' = k) then (k, v) :: d' else (k', v') :: dict_set k v d'
  end.

(** [del d[k]] *)
Definition dict_del {V} (k : string) (d : dict V) : dict V :=
  List.filter (fun kv => negb (bool_decide (kv.1 = k))) d.

Definition dict_keys {V} (d : dict V) : list string := map fst d.

(** ** Drive metadata, requests and what the user sees *)

Record file_meta : Type := mkMeta {
  m_id : string;
  m_name : string;
  m_mimeType : string;
  m_modifiedTime : string
}.

#[global] Instance file_meta_eq_dec : EqDecision file_meta.
Proof. solve_decision. Defined.

Definition meta_is_folder (f : file_meta) : bool :=
  bool_decide (m_mimeType f = FOLDER_MIME).

(** The requests sent to the Drive service. *)
Inductive request : Type :=
  | ReqGet (file_id fields : string)           (* files().get *)
  | ReqList (folder_id : string) (page_size : nat)   (* files().list, first page *)
  | ReqMedia (file_id : string)                (* get_media + next_chunk *)
  | ReqUpdate (file_id : string) (content : list Byte.byte).  (* files().update *)

(** The texts written to the "Sync Status" column. *)
Inductive label : Type :=
  | SYNCING            (* "SYNCING..." *)
  | SYNCED_FILE        (* "SYNCED FILE" *)
  | SYNCED_FOLDER      (* "SYNCED FOLDER" *)
  | NAHRANO            (* uploaded *)
  | NAHRANI_SELHALO    (* upload failed *)
  | STAZENO            (* downloaded *)
  | STAZENI_SELHALO    (* download failed *)
  | KONFLIKT.          (* conflict *)

Inductive gui_event : Type :=
  | TreeStatus (file_id file_name : string) (l : label)
      (* update_treeview_sync_status(file_id, file_name, l) *)
  | ShowInfo (title : string) (file_name : string)    (* messagebox.showinfo *)
  | ShowError (title : string) (file_name : string).  (* messagebox.showerror *)

(** What the walker yields: [(file_metadata, drive_relative_path, full_local_path)]. *)
Definition yielded : Type := file_meta * string * string.

(** ** Program state and the state-and-exception monad

    [gui], [trace] and [yields] are logs: they record what the program
    showed, requested and enumerated, and the program never reads them. *)

Record State (R : Type) : Type := mkState {
  remote : R;                         (* the Drive service *)
  fs : gmap string node;              (* local files *)
  clock : Z;                          (* time.time() *)
  sync_status : dict SyncRecord;      (* self.sync_status *)
  status_file : dict SyncRecord;      (* sync_status.json *)
  current_folder_id : string;         (* self.current_folder_id *)
  gui : list gui_event;               (* oldest first *)
  trace : list request;               (* oldest first *)
  yields : list yielded               (* what the walker yielded, oldest first *)
}.
Arguments mkState {R}.
Arguments remote {R}.
Arguments fs {R}.
Arguments clock {R}.
Arguments sync_status {R}.
Arguments status_file {R}.
Arguments current_folder_id {R}.
Arguments gui {R}.
Arguments trace {R}.
Arguments yields {R}.

Definition M (S A : Type) : Type := S -> S * res A.

Definition ret {S A} (a : A) : M S A := fun s => (s, Ok a).

Definition raise {S A} (e : exn) : M S A := fun s => (s, Raise e).

Definition bind {S A B} (m : M S A) (k : A -> M S B) : M S B :=
  fun s => match m s with
           | (s', Ok a) => k a s'
           | (s', Raise e) => (s', Raise e)
           end.

(** [try: m  except Exception: h] *)
Definition try_except {S A} (m : M S A) (h : exn -> M S A) : M S A :=
  fun s => match m s with
           | (s', Ok a) => (s', Ok a)
           | (s', Raise e) => h e s'
           end.

Declare Scope m_scope.
Delimit Scope m_scope with m.
Notation "x <- m ;; k" := (bind m (fun x => k))
  (at level 100, m at next level, right associativity) : m_scope.
Notation "m ;;; k" := (bind m (fun _ => k))
  (at level 100, right associativity) : m_scope.

(** [for x in xs: body(x)] *)
Fixpoint for_each {S A} (xs : list A) (body : A -> M S unit) : M S unit :=
  match xs with
  | [] => ret tt
  | x :: xs' => bind (body x) (fun _ => for_each xs' body)
  end.

(** ** The collaborators *)

(** The Drive client.  Each request takes the remote state and returns the
    new one with the response or the exception of [.execute()].
    [media_download] returns the bytes that [next_chunk] delivered to the
    file handle before it finished or raised. *)
Record Service (R : Type) : Type := mkService {
  files_get : string -> string -> R -> R * res file_meta;
  files_list : string -> nat -> R -> R * res (list file_meta);
  media_download : string -> R -> R * (list Byte.byte * res unit);
  files_update : string -> list Byte.byte -> R -> R * res string
}.
Arguments files_get {R}.
Arguments files_list {R}.
Arguments media_download {R}.
Arguments files_update {R}.

(** Library functions used by the engine. *)
Record Library : Type := mkLibrary {
  sha1_hexdigest : list Byte.byte -> string;
  fromisoformat : string -> res datetime
}.

Section Engine.
Context {R : Type}.
Variable svc : Service R.
Variable lib : Library.

Local Abbreviation St := (State R).
Local Abbreviation Mo := (M (State R)).
Local Open Scope m_scope.

(** *** State access *)

Definition set_remote (r : R) (s : St) : St :=
  mkState r (fs s) (clock s) (sync_status s) (status_file s)
          (current_folder_id s) (gui s) (trace s) (yields s).
Definition set_fs (f : gmap string node) (s : St) : St :=
  mkState (remote s) f (clock s) (sync_status s) (status_file s)
          (current_folder_id s) (gui s) (trace s) (yields s).
Definition set_sync_status (d : dict SyncRecord) (s : St) : St :=
  mkState (remote s) (fs s) (clock s) d (status_file s)
          (current_folder_id s) (gui s) (trace s) (yields s).
Definition set_status_file (d : dict SyncRecord) (s : St) : St :=
  mkState (remote s) (fs s) (clock s) (sync_status s) d
          (current_folder_id s) (gui s) (trace s) (yields s).
Definition set_current_folder_id (c : string) (s : St) : St :=
  mkState (remote s) (fs s) (clock s) (sync_status s) (status_file s)
          c (gui s) (trace s) (yields s).
Definition add_gui (e : gui_event) (s : St) : St :=
  mkState (remote s) (fs s) (clock s) (sync_status s) (status_file s)
          (current_folder_id s) (gui s ++ [e])%list (trace s) (yields s).
Definition add_trace (q : request) (s : St) : St :=
  mkState (remote s) (fs s) (clock s) (sync_status s) (status_file s)
          (current_folder_id s) (gui s) (trace s ++ [q])%list (yields s).

Definition add_yield (y : yielded) (s : St) : St :=
  mkState (remote s) (fs s) (clock s) (sync_status s) (status_file s)
          (current_folder_id s) (gui s) (trace s) (yields s ++ [y])%list.

(** A request: logged, then answered by the service. *)
Definition call {A} (q : request) (f : R -> R * res A) : Mo A :=
  fun s => let '(r', x) := f (remote s) in (set_remote r' (add_trace q s), x).

Definition service_get (file_id fields : string) : Mo file_meta :=
  call (ReqGet file_id fields) (files_get svc file_id fields).

Definition service_update (file_id : string) (content : list Byte.byte) : Mo string :=
  call (ReqUpdate file_id content) (files_update svc file_id content).

(** A file-system operation that changes the file system or raises. *)
Definition fs_do (op : gmap string node -> res (gmap string node)) : Mo unit :=
  fun s => match op (fs s) with
           | Ok f => (set_fs f s, Ok tt)
           | Raise e => (s, Raise e)
           end.

Definition os_path_exists (p : string) : Mo bool :=
  fun s => (s, Ok (fs_exists p (fs s))).

Definition time_time : Mo Z := fun s => (s, Ok (clock s)).

Definition post (e : gui_event) : Mo unit := fun s => (add_gui e s, Ok tt).

Definition get_sync_status : Mo (dict SyncRecord) := fun s => (s, Ok (sync_status s)).

Definition lift_res {A} (x : res A) : Mo A := fun s => (s, x).

(** [datetime.fromisoformat(t.replace('Z', '+00:00'))] *)
Definition parse_time (t : string) : Mo datetime :=
  lift_res (fromisoformat lib (replace_Z t)).

(** [self.sync_status[file_id] = rec] *)
Definition store_record (file_id : string) (rec : SyncRecord) : Mo unit :=
  fun s => (set_sync_status (dict_set file_id rec (sync_status s)) s, Ok tt).

(** [self.sync_status[file_id].update(...)] and [self.sync_status[file_id][k] = v]:
    the record object is changed in place. *)
Definition update_record (file_id : string) (f : SyncRecord -> SyncRecord) : Mo unit :=
  fun s => match dict_get file_id (sync_status s) with
           | Some rec => (set_sync_status (dict_set file_id (f rec) (sync_status s)) s, Ok tt)
           | None => (s, Raise KeyError)
           end.

(** *** DRIVE OPERATIONS *)

Definition list_files_in_folder (folder_id : string) : Mo (list file_meta) :=
  call (ReqList folder_id PAGE_SIZE) (files_list svc folder_id PAGE_SIZE).

(** The [while not done: downloader.next_chunk()] loop on the open file. *)
Definition next_chunks (file_id local_path : string) : Mo unit :=
  fun s =>
    let '(r', (written, outcome)) := media_download svc file_id (remote s) in
    let s' := set_fs (<[local_path := File written]> (fs s))
                     (set_remote r' (add_trace (ReqMedia file_id) s)) in
    match outcome with
    | Ok _ => (s', Ok tt)
    | Raise e => (s', Raise e)
    end.

Definition download_file (file_id file_name local_path : string) : Mo (option string) :=
  fs_do (fs_makedirs (os_path_dirname local_path)) ;;;
  try_except
    (fs_do (fs_open_wb local_path) ;;;
     next_chunks file_id local_path ;;;
     ret (Some local_path))
    (fun _ => ret None).

(** Truth value of what [download_file] returns. *)
Definition truthy (p : option string) : bool :=
  match p with
  | Some path => negb (bool_decide (path = ""))
  | None => false
  end.

Definition update_file_content (file_id local_filepath : string) : Mo string :=
  content <- (fun s => (s, fs_read local_filepath (fs s))) ;;
  service_update file_id content.

(** *** SYNCHRONIZATION LOGIC *)

Definition save_sync_status (status_data : dict SyncRecord) : Mo unit :=
  fun s => (set_status_file status_data s, Ok tt).

(** What [get_local_file_hash] computes on file system [f]. *)
Definition file_hash (f : gmap string node) (filepath : string) : res (option string) :=
  match fs_read filepath f with
  | Ok content => Ok (Some (sha1_hexdigest lib content))
  | Raise FileNotFoundError => Ok None
  | Raise e => Raise e
  end.

Definition get_local_file_hash (filepath : string) : Mo (option string) :=
  fun s => (s, file_hash (fs s) filepath).

(** The generator together with the [for] loop that drives it:
    [consume] is the loop body, run at every [yield].  [depth] bounds the
    nesting of folders (Python's recursion limit). *)
Fixpoint _recursively_get_folder_content (depth : nat)
    (drive_id local_path_prefix sync_root_id : string)
    (consume : file_meta -> string -> string -> Mo unit) : Mo unit :=
  match depth with
  | O => raise RecursionError
  | S depth' =>
      listing <- try_except
                   (files <- list_files_in_folder drive_id ;; ret (Some files))
                   (fun _ => ret None) ;;
      match listing with
      | None => ret tt
      | Some files =>
          for_each files (fun f =>
            let f_name := m_name f in
            let f_id := m_id f in
            let is_folder := meta_is_folder f in
            let drive_relative_path := os_path_join local_path_prefix f_name in
            let full_local_path := os_path_join SYNC_DIR drive_relative_path in
            (fun s => (add_yield (f, drive_relative_path, full_local_path) s, Ok tt)) ;;;
            consume f drive_relative_path full_local_path ;;;
            if is_folder then
              _recursively_get_folder_content depth' f_id
                drive_relative_path sync_root_id consume
            else ret tt)
      end
  end.

(** *** [DriveBrowser]: conflict resolution *)

(** Body of [upload_worker]. *)
Definition _resolve_conflict_upload (file_id file_name local_filepath : string) : Mo unit :=
  try_except
    (update_file_content file_id local_filepath ;;;
     current_local_hash <- get_local_file_hash local_filepath ;;
     remote_metadata_after_upload <- service_get file_id "modifiedTime" ;;
     now <- time_time ;;
     update_record file_id (fun rec =>
       {| name := name rec;
          is_folder := is_folder rec;
          local_path := local_path rec;
          last_synced_time := now;
          remote_modified_time := m_modifiedTime remote_metadata_after_upload;
          local_hash_at_sync := current_local_hash;
          drive_root_id := drive_root_id rec;
          drive_relative_path := drive_relative_path rec |}) ;;;
     status <- get_sync_status ;;
     save_sync_status status ;;;
     post (ShowInfo "Konflikt vyresen" file_name) ;;;
     post (TreeStatus file_id file_name NAHRANO))
    (fun _ =>
     post (ShowError "Chyba nahravani" file_name) ;;;
     post (TreeStatus file_id file_name NAHRANI_SELHALO)).

(** Body of [download_worker]. *)
Definition _resolve_conflict_download (file_id file_name local_filepath : string) : Mo unit :=
  try_except
    (remote_metadata <- service_get file_id "modifiedTime, name" ;;
     let remote_modified_time := m_modifiedTime remote_metadata in
     download_file file_id (m_name remote_metadata) local_filepath ;;;
     new_local_hash <- get_local_file_hash local_filepath ;;
     now <- time_time ;;
     update_record file_id (fun rec =>
       {| name := m_name remote_metadata;
          is_folder := is_folder rec;
          local_path := local_filepath;
          last_synced_time := now;
          remote_modified_time := remote_modified_time;
          local_hash_at_sync := new_local_hash;
          drive_root_id := drive_root_id rec;
          drive_relative_path := drive_relative_path rec |}) ;;;
     status <- get_sync_status ;;
     save_sync_status status ;;;
     post (ShowInfo "Konflikt vyresen" file_name) ;;;
     post (TreeStatus file_id file_name STAZENO))
    (fun _ =>
     post (ShowError "Chyba stahovani" file_name) ;;;
     post (TreeStatus file_id file_name STAZENI_SELHALO)).

(** *** [DriveBrowser]: tracking *)

Definition download_and_track (file_id file_name : string) (is_folder : bool)
    (drive_relative_path full_local_path sync_root_id : string) : Mo bool :=
  let finish (remote_modified_time : string) (local_hash : option string) : Mo bool :=
    now <- time_time ;;
    store_record file_id
      {| name := file_name;
         is_folder := is_folder;
         local_path := full_local_path;
         last_synced_time := now;
         remote_modified_time := remote_modified_time;
         local_hash_at_sync := local_hash;
         drive_root_id := sync_root_id;
         drive_relative_path := drive_relative_path |} ;;;
    status <- get_sync_status ;;
    save_sync_status status ;;;
    ret true in
  if is_folder then
    fs_do (fs_makedirs full_local_path) ;;;
    finish "" (Some "")
  else
    fetched <- try_except
                 (remote_metadata <- service_get file_id "modifiedTime" ;;
                  ret (Some (m_modifiedTime remote_metadata)))
                 (fun _ => ret None) ;;
    match fetched with
    | None => ret false
    | Some remote_modified_time =>
        downloaded <- download_file file_id file_name full_local_path ;;
        if negb (truthy downloaded) then ret false
        else
          local_hash <- get_local_file_hash full_local_path ;;
          finish remote_modified_time local_hash
    end.

(** The body of the [for] loop of [_start_recursive_sync]. *)
Definition track_yielded (sync_root_id : string)
    (f : file_meta) (drive_relative_path full_local_path : string) : Mo unit :=
  try_except
    (let is_folder := meta_is_folder f in
     download_and_track (m_id f) (m_name f) is_folder
                        drive_relative_path full_local_path sync_root_id ;;;
     if negb is_folder then post (TreeStatus (m_id f) (m_name f) SYNCED_FILE)
     else ret tt)
    (fun _ => ret tt).

Definition _start_recursive_sync (depth : nat) (drive_folder_id folder_name : string) : Mo unit :=
  post (TreeStatus drive_folder_id folder_name SYNCING) ;;;
  let sync_root_id := drive_folder_id in
  let drive_relative_path := folder_name in
  let full_local_path := os_path_join SYNC_DIR folder_name in
  download_and_track drive_folder_id folder_name true
                     drive_relative_path full_local_path sync_root_id ;;;
  _recursively_get_folder_content depth drive_folder_id folder_name sync_root_id
                                  (track_yielded sync_root_id) ;;;
  post (TreeStatus drive_folder_id folder_name SYNCED_FOLDER) ;;;
  post (ShowInfo "Synchronizace dokoncena" folder_name).

(** *** [DriveBrowser]: untracking *)

Definition matches_root (drive_id : string) (kv : string * SyncRecord) : bool :=
  bool_decide (drive_root_id kv.2 = drive_id) || bool_decide (kv.1 = drive_id).

Definition _recursively_unsync (drive_id : string) : Mo unit :=
  status_now <- get_sync_status ;;
  let items_to_unsync := dict_keys (List.filter (matches_root drive_id) status_now) in
  match dict_get drive_id status_now with
  | Some status =>
      if is_folder status then
        try_except
          (there <- os_path_exists (local_path status) ;;
           if there then fs_do (fs_rmtree (local_path status)) else ret tt)
          (fun _ => ret tt)
      else
        there <- os_path_exists (local_path status) ;;
        if there then fs_do (fs_remove (local_path status)) else ret tt
  | None => ret tt
  end ;;;
  for_each items_to_unsync (fun fid =>
    fun s => if dict_mem fid (sync_status s)
             then (set_sync_status (dict_del fid (sync_status s)) s, Ok tt)
             else (s, Ok tt)) ;;;
  status_end <- get_sync_status ;;
  save_sync_status status_end.

(** The dictionary without the entries under the keys [ks]. *)
Definition without_keys (ks : list string) (d : dict SyncRecord) : dict SyncRecord :=
  List.filter (fun kv => negb (bool_decide (kv.1 ∈ ks))) d.

(** What step 2 of [_recursively_unsync] makes of the local files. *)
Definition unsync_local (d : dict SyncRecord) (drive_id : string)
    (f : gmap string node) : res (gmap string node) :=
  match dict_get drive_id d with
  | None => Ok f
  | Some status =>
      if is_folder status then
        if fs_exists (local_path status) f then
          match fs_rmtree (local_path status) f with
          | Ok f' => Ok f'
          | Raise _ => Ok f
          end
        else Ok f
      else
        if fs_exists (local_path status) f
        then fs_remove (local_path status) f
        else Ok f
  end.

(** [load_folder]: only the request and [self.current_folder_id]. *)
Definition load_folder (folder_id folder_name : string) : Mo unit :=
  try_except
    (list_files_in_folder folder_id ;;;
     fun s => (set_current_folder_id folder_id s, Ok tt))
    (fun _ => post (ShowError "Chyba" folder_name)).

(** [toggle_sync] on the selected row [(name, ftype, file_id)]; [answer] is
    what the user replies to [askyesno], [shown_folder] the text of the
    path label.  The worker thread is run to its end. *)
Definition toggle_sync (depth : nat) (file_id name ftype shown_folder : string)
    (answer : bool) : Mo unit :=
  let is_folder := bool_decide (ftype = "Folder") in
  status_now <- get_sync_status ;;
  if dict_mem file_id status_now then
    _recursively_unsync file_id ;;;
    post (ShowInfo "Sync" name) ;;;
    current <- (fun s => (s, Ok (current_folder_id s))) ;;
    load_folder current shown_folder
  else if is_folder then
    if answer then _start_recursive_sync depth file_id name else ret tt
  else
    let drive_relative_path := name in
    let full_local_path := os_path_join SYNC_DIR name in
    sync_root_id <- (fun s => (s, Ok (current_folder_id s))) ;;
    ok <- download_and_track file_id name false
            drive_relative_path full_local_path sync_root_id ;;
    if ok then
      post (ShowInfo "Sync" name) ;;;
      post (TreeStatus file_id name SYNCED_FILE)
    else ret tt.

(** *** [DriveBrowser]: the monitor passes

    [updated_sync_status = self.sync_status.copy()] is a shallow copy:
    both dictionaries hold the same record objects under the same keys,
    so a record changed through [updated_sync_status[file_id]] is changed
    in [self.sync_status] too, and the assignment that ends the pass
    changes nothing.  The loop variable [status] is the record as the
    dictionary held it when the pass started. *)

(** One iteration of the loop of [check_and_sync_local_changes]. *)
Definition push_item (file_id : string) (status : SyncRecord) : Mo unit :=
  if is_folder status then ret tt
  else
    let local_filepath := local_path status in
    there <- os_path_exists local_filepath ;;
    if negb there then ret tt
    else
      current_local_hash <- get_local_file_hash local_filepath ;;
      if negb (bool_decide (current_local_hash = local_hash_at_sync status)) then
        try_except
          (remote_metadata_current <- service_get file_id "modifiedTime, name" ;;
           let remote_modified_time_current := m_modifiedTime remote_metadata_current in
           current_remote_time <- parse_time remote_modified_time_current ;;
           last_synced_remote_time <- parse_time (remote_modified_time status) ;;
           newer <- lift_res (datetime_gt current_remote_time last_synced_remote_time) ;;
           if newer then
             post (TreeStatus file_id (name status) KONFLIKT)
           else
             update_file_content file_id local_filepath ;;;
             remote_metadata_after_upload <- service_get file_id "modifiedTime" ;;
             now <- time_time ;;
             update_record file_id (fun rec =>
               {| name := name rec; is_folder := is_folder rec;
                  local_path := local_path rec;
                  last_synced_time := now;
                  remote_modified_time := remote_modified_time rec;
                  local_hash_at_sync := local_hash_at_sync rec;
                  drive_root_id := drive_root_id rec;
                  drive_relative_path := drive_relative_path rec |}) ;;;
             update_record file_id (fun rec =>
               {| name := name rec; is_folder := is_folder rec;
                  local_path := local_path rec;
                  last_synced_time := last_synced_time rec;
                  remote_modified_time := remote_modified_time rec;
                  local_hash_at_sync := current_local_hash;
                  drive_root_id := drive_root_id rec;
                  drive_relative_path := drive_relative_path rec |}) ;;;
             update_record file_id (fun rec =>
               {| name := name rec; is_folder := is_folder rec;
                  local_path := local_path rec;
                  last_synced_time := last_synced_time rec;
                  remote_modified_time := m_modifiedTime remote_metadata_after_upload;
                  local_hash_at_sync := local_hash_at_sync rec;
                  drive_root_id := drive_root_id rec;
                  drive_relative_path := drive_relative_path rec |}) ;;;
             post (TreeStatus file_id (name status) NAHRANO))
          (fun _ => post (TreeStatus file_id (name status) NAHRANI_SELHALO))
      else ret tt.

Definition check_and_sync_local_changes : Mo unit :=
  items <- get_sync_status ;;
  for_each items (fun kv => push_item kv.1 kv.2) ;;;
  status <- get_sync_status ;;
  save_sync_status status.

(** One iteration of the loop of [check_and_sync_remote_changes]. *)
Definition pull_item (file_id : string) (status : SyncRecord) : Mo unit :=
  if is_folder status then ret tt
  else
    try_except
      (remote_metadata <- service_get file_id "modifiedTime, name" ;;
       let remote_modified_time_str := m_modifiedTime remote_metadata in
       remote_time <- parse_time remote_modified_time_str ;;
       last_synced_remote_time <- parse_time (remote_modified_time status) ;;
       newer <- lift_res (datetime_gt remote_time last_synced_remote_time) ;;
       if newer then
         let local_filepath := local_path status in
         current_local_hash <- get_local_file_hash local_filepath ;;
         if bool_decide (current_local_hash = local_hash_at_sync status) then
           download_file file_id (m_name remote_metadata) local_filepath ;;;
           new_local_hash <- get_local_file_hash local_filepath ;;
           now <- time_time ;;
           update_record file_id (fun rec =>
             {| name := m_name remote_metadata;
                is_folder := is_folder rec;
                local_path := local_filepath;
                last_synced_time := now;
                remote_modified_time := remote_modified_time_str;
                local_hash_at_sync := new_local_hash;
                drive_root_id := drive_root_id rec;
                drive_relative_path := drive_relative_path rec |}) ;;;
           post (TreeStatus file_id (m_name remote_metadata) STAZENO)
         else
           post (TreeStatus file_id (name status) KONFLIKT)
       else ret tt)
      (fun _ => ret tt).

Definition check_and_sync_remote_changes : Mo unit :=
  items <- get_sync_status ;;
  for_each items (fun kv => pull_item kv.1 kv.2) ;;;
  status <- get_sync_status ;;
  save_sync_status status.

(** The record of a successful push: three fields refreshed. *)
Definition pushed (status : SyncRecord) (now : Z) (h : option string)
    (remote_time : string) : SyncRecord :=
  {| name := name status; is_folder := is_folder status;
     local_path := local_path status;
     last_synced_time := now;
     remote_modified_time := remote_time;
     local_hash_at_sync := h;
     drive_root_id := drive_root_id status;
     drive_relative_path := drive_relative_path status |}.

(** The record of [id] names [id] as its root. *)
Definition own_root (id : string) (s : St) : Prop :=
  exists rec, dict_get id (sync_status s) = Some rec /\ drive_root_id rec = id.

(** The dictionary holds [v] under [k] ([None]: nothing). *)
Definition record_at (k : string) (v : option SyncRecord) (s : St) : Prop :=
  dict_get k (sync_status s) = v.

(** One round of [start_sync_monitor] (the sleep is not modelled). *)
Definition sync_monitor_round : Mo unit :=
  check_and_sync_local_changes ;;;
  check_and_sync_remote_changes.
End Engine.

(** ** An in-memory Drive

    Items in listing order, each with one parent.  [script] decides which
    of the coming requests fail: every request consumes its head; [Fail n]
    makes the request raise, a download after delivering [n] bytes.  A
    listing returns the first [page_size] children and no more. *)
Module MemDrive.

Record item : Type := mkItem {
  i_id : string;
  i_name : string;
  i_mimeType : string;
  i_modifiedTime : string;
  i_parent : string;
  i_content : list Byte.byte;
  i_trashed : bool
}.

Inductive fault : Type :=
  | Pass
  | Fail (delivered : nat).

Record drive : Type := mkDrive {
  items : list item;
  script : list fault;
  server_time : string       (* the stamp the next upload gets *)
}.

Definition meta_of (i : item) : file_meta :=
  mkMeta (i_id i) (i_name i) (i_mimeType i) (i_modifiedTime i).

(** ['folder_id' in parents and trashed=false] *)
Definition is_child (folder_id : string) (i : item) : bool :=
  bool_decide (i_parent i = folder_id) && negb (i_trashed i).

Definition children (its : list item) (folder_id : string) : list item :=
  List.filter (is_child folder_id) its.

Definition lookup_item (d : drive) (file_id : string) : option item :=
  List.find (fun i => bool_decide (i_id i = file_id)) (items d).

Definition next_fault (d : drive) : fault * drive :=
  match script d with
  | [] => (Pass, d)
  | f :: rest => (f, mkDrive (items d) rest (server_time d))
  end.

Definition api_get (file_id fields : string) (d : drive) : drive * res file_meta :=
  let '(f, d') := next_fault d in
  match f with
  | Fail _ => (d', Raise HttpError)
  | Pass => match lookup_item d' file_id with
            | Some i => (d', Ok (meta_of i))
            | None => (d', Raise HttpError)
            end
  end.

Definition api_list (folder_id : string) (page_size : nat) (d : drive)
    : drive * res (list file_meta) :=
  let '(f, d') := next_fault d in
  match f with
  | Fail _ => (d', Raise HttpError)
  | Pass => (d', Ok (map meta_of (firstn page_size (children (items d') folder_id))))
  end.

Definition api_media (file_id : string) (d : drive)
    : drive * (list Byte.byte * res unit) :=
  let '(f, d') := next_fault d in
  match lookup_item d' file_id, f with
  | Some i, Pass => (d', (i_content i, Ok tt))
  | Some i, Fail n => (d', (firstn n (i_content i), Raise HttpError))
  | None, _ => (d', ([], Raise HttpError))
  end.

Definition put (file_id : string) (content : list Byte.byte) (stamp : string)
    (i : item) : item :=
  if bool_decide (i_id i = file_id)
  then mkItem (i_id i) (i_name i) (i_mimeType i) stamp (i_parent i) content (i_trashed i)
  else i.

Definition api_update (file_id : string) (content : list Byte.byte) (d : drive)
    : drive * res string :=
  let '(f, d') := next_fault d in
  match f, lookup_item d' file_id with
  | Pass, Some _ =>
      (mkDrive (map (put file_id content (server_time d')) (items d'))
               (script d') (server_time d'), Ok file_id)
  | _, _ => (d', Raise HttpError)
  end.

Definition service : Service drive := mkService drive api_get api_list api_media api_update.

(** [m] describes one of the first [PAGE_SIZE] children of its parent. *)
Definition first_page (its : list item) (m : file_meta) : Prop :=
  exists x, m = meta_of x /\ In x (firstn PAGE_SIZE (children its (i_parent x))).

(** [id] is the folder [root] or an item on a first page. *)
Definition reached (its : list item) (root id : string) : Prop :=
  id = root \/ exists m, first_page its m /\ m_id m = id.

(** A request of the first page of a reached folder, or of the metadata
    or the content of a reached item. *)
Definition request_reached (its : list item) (root : string) (q : request) : Prop :=
  match q with
  | ReqList folder_id page_size => page_size = PAGE_SIZE /\ reached its root folder_id
  | ReqGet file_id _ => reached its root file_id
  | ReqMedia file_id => reached its root file_id
  | ReqUpdate _ _ => False
  end.

(** What a walk from [root] started in state [s0] may have added to the
    logs and the dictionary of [s]. *)
Definition walked (s0 : State drive) (root : string) (s : State drive) : Prop :=
  let its := items (remote s0) in
  items (remote s) = its /\
  (forall y, In y (yields s) -> In y (yields s0) \/ first_page its y.1.1) /\
  (forall q, In q (trace s) -> In q (trace s0) \/ request_reached its root q) /\
  (forall k, In k (dict_keys (sync_status s)) ->
             In k (dict_keys (sync_status s0)) \/ reached its root k).

(** Stand-ins for the two library functions, enough to run scenarios:
    the digest spells the bytes out, the parser knows three stamps. *)
Definition digest (content : list Byte.byte) : string :=
  string_of_list_byte content.

Definition parse (t : string) : res datetime :=
  if bool_decide (t = "2024-01-01T00:00:00+00:00") then Ok (mkDatetime 0 true)
  else if bool_decide (t = "2024-01-02T00:00:00+00:00") then Ok (mkDatetime 86400 true)
  else if bool_decide (t = "2024-01-03T00:00:00+00:00") then Ok (mkDatetime 172800 true)
  else Raise ValueError.

Definition library : Library := mkLibrary digest parse.

Definition T0 : string := "2024-01-01T00:00:00Z".
Definition T1 : string := "2024-01-02T00:00:00Z".
Definition T2 : string := "2024-01-03T00:00:00Z".

Definition bytes (s : string) : list Byte.byte := list_byte_of_string s.

Definition folder (id name parent : string) : item :=
  mkItem id name FOLDER_MIME T0 parent [] false.

Definition file (id name parent stamp content : string) : item :=
  mkItem id name "text/plain" stamp parent (bytes content) false.

(** A fresh program on drive [d]: nothing tracked, only [synced_files]
    on disk, the browser showing the root folder. *)
Definition start (d : drive) : State drive :=
  mkState d (<[SYNC_DIR := Dir]> ∅) 1000 [] [] "root" [] [] [].

(** [Docs] holding [a.txt] and the subfolder [Sub] with [b.txt]. *)
Definition docs_drive : drive :=
  mkDrive [ folder "docs" "Docs" "root";
            file "a" "a.txt" "docs" T0 "alpha";
            folder "sub" "Sub" "docs";
            file "b" "b.txt" "sub" T0 "beta" ] [] T1.

(** A folder root with one subfolder and two files. *)
Definition four_drive : drive :=
  mkDrive [ folder "docs" "Docs" "root";
            file "a" "a.txt" "docs" T0 "alpha";
            file "c" "c.txt" "docs" T0 "gamma";
            folder "sub" "Sub" "docs" ] [] T1.

(** One file [report.csv] in the root folder. *)
Definition report_drive (stamp : string) (faults : list fault) : drive :=
  mkDrive [ file "r" "report.csv" "root" stamp "remote" ] faults T2.

Definition report_record : SyncRecord :=
  mkRecord "report.csv" false "synced_files/report.csv" 900 T0
           (Some (digest (bytes "old"))) "root" "report.csv".

(** [report.csv] tracked at stamp [T0] with local content [local]. *)
Definition report_state (stamp : string) (faults : list fault) (local : string)
    : State drive :=
  mkState (report_drive stamp faults)
          (<["synced_files/report.csv" := File (bytes local)]> (<[SYNC_DIR := Dir]> ∅))
          1000 [("r", report_record)] [("r", report_record)] "root" [] [] [].

Definition report_path : string := "synced_files/report.csv".
Definition report_meta (stamp : string) : file_meta :=
  mkMeta "r" "report.csv" "text/plain" stamp.

(** The state after tracking [Docs] on [docs_drive]. *)
Definition docs_tracked : State drive :=
  (_start_recursive_sync service library 10 "docs" "Docs" (start docs_drive)).1.

(** The state after tracking [Docs] on [four_drive]. *)
Definition four_tracked : State drive :=
  (_start_recursive_sync service library 10 "docs" "Docs" (start four_drive)).1.

(** The state after tracking the single file [report.csv] from the
    browser, which shows the root folder. *)
Definition file_tracked : State drive :=
  (toggle_sync service library 10 "r" "report.csv" "csv" "root" true
               (start (report_drive T0 []))).1.

(** A folder with [n] files [f0 ... f(n-1)] as its children. *)
Fixpoint many_files (n : nat) : list item :=
  match n with
  | O => []
  | S k => (many_files k ++ [file ("f" ++ pretty k) ("f" ++ pretty k) "big" T0 ""])%list
  end.


(** A folder [Big] with 101 files. *)
Definition big_drive : drive :=
  mkDrive (folder "big" "Big" "root" :: many_files 101) [] T1.

Definition big_tracked : State drive :=
  (_start_recursive_sync service library 10 "big" "Big" (start big_drive)).1.

End MemDrive.

(** ** Reading the logs and the dictionary *)

Definition is_get (q : request) : bool :=
  match q with ReqGet _ _ => true | _ => false end.

Definition is_media (q : request) : bool :=
  match q with ReqMedia _ => true | _ => false end.

Definition is_update (q : request) : bool :=
  match q with ReqUpdate _ _ => true | _ => false end.

(** Between [s0] and [s] requests were sent, all of class [C]. *)
Definition asked_since {R : Type} (C : request -> bool) (s0 s : State R) : Prop :=
  exists extra, trace s = (trace s0 ++ extra)%list /\ forallb C extra = true.

(** What says which item a record stands for: key, kind, root, relative path. *)
Definition identity (kv : string * SyncRecord) : string * bool * string * string :=
  (kv.1, is_folder kv.2, drive_root_id kv.2, drive_relative_path kv.2).

(** [f] rewrites a record without changing whose record it is. *)
Definition keeps_identity (f : SyncRecord -> SyncRecord) : Prop :=
  forall rec, is_folder (f rec) = is_folder rec /\
              drive_root_id (f rec) = drive_root_id rec /\
              drive_relative_path (f rec) = drive_relative_path rec.

(** A record as tracking under [root] makes it: that root, and the local
    path that [SYNC_DIR] and the relative path give. *)
Definition tracked_under (root : string) (rec : SyncRecord) : Prop :=
  drive_root_id rec = root /\
  local_path rec = os_path_join SYNC_DIR (drive_relative_path rec).

(** ** Further scenarios on the in-memory Drive *)
Module Scenarios.
Import MemDrive.

(** [report.csv] tracked, with a directory where its local copy should be. *)
Definition report_blocked : State drive :=
  mkState (report_drive T0 [])
          (<["synced_files/report.csv" := Dir]> (<[SYNC_DIR := Dir]> ∅))
          1000 [("r", report_record)] [("r", report_record)] "root" [] [] [].

Definition docs_record : SyncRecord :=
  mkRecord "Docs" true "synced_files/Docs" 900 "" (Some "") "docs" "Docs".

Definition sub_record : SyncRecord :=
  mkRecord "Sub" true "synced_files/Docs/Sub" 900 "" (Some "") "docs" "Docs/Sub".

Definition a_record : SyncRecord :=
  mkRecord "a.txt" false "synced_files/Docs/a.txt" 1000 T0 (Some "alpha")
           "docs" "Docs/a.txt".

(** [Docs] tracked with [a.txt], with a regular file where the local
    folder should be. *)
Definition docs_shadowed : State drive :=
  mkState docs_drive
          (<["synced_files/Docs" := File (bytes "x")]> (<[SYNC_DIR := Dir]> ∅))
          1000 [("docs", docs_record); ("a", a_record)] [] "root" [] [] [].

(** Only the folders [Docs] and [Sub] tracked. *)
Definition folders_only : State drive :=
  mkState docs_drive
          (<["synced_files/Docs/Sub" := Dir]>
             (<["synced_files/Docs" := Dir]> (<[SYNC_DIR := Dir]> ∅)))
          1000 [("docs", docs_record); ("sub", sub_record)] [] "root" [] [] [].

(** [docs_drive] with the request after the next one failing. *)
Definition docs_drive_faulty : drive :=
  mkDrive (items docs_drive) [Pass; Fail 0] T1.

End Scenarios.

(** * Properties *)

(** ** Running the model *)

Example join_ex : os_path_join "Docs" "a.txt" = "Docs/a.txt".
Proof. reflexivity. Qed.

Example join_absolute_ex : os_path_join "Docs" "/etc" = "/etc".
Proof. reflexivity. Qed.

Example dirname_ex : os_path_dirname "synced_files/Docs/a.txt" = "synced_files/Docs".
Proof. reflexivity. Qed.

Example chain_ex : path_chain "synced_files/Docs/Sub" =
  ["synced_files"; "synced_files/Docs"; "synced_files/Docs/Sub"].
Proof. reflexivity. Qed.

Example rmtree_ex :
  fs_rmtree "a" (<["a/b" := File []]> (<["a" := Dir]> (<["ab" := Dir]> ∅)))
  = Ok (<["ab" := Dir]> ∅).
Proof. vm_compute. reflexivity. Qed.

Example split_ex : split_sep "synced_files/Docs/a.txt" = ["synced_files"; "Docs"; "a.txt"].
Proof. reflexivity. Qed.

Example plain_ex : plain_path "synced_files/Docs/a.txt" = true.
Proof. reflexivity. Qed.

Example not_plain_ex :
  map plain_path ["synced_files/Docs/"; "synced_files/.."; "synced_files/./a";
                  "a//b"; "/etc"; ""] = [false; false; false; false; false; false].
Proof. reflexivity. Qed.

Example open_directory_name_ex :
  fs_open_wb "synced_files/.." (<["synced_files" := Dir]> ∅) = Raise IsADirectoryError.
Proof. reflexivity. Qed.

Example makedirs_below_file_ex :
  fs_makedirs "synced_files/a/b" (<["synced_files/a" := File []]> (<["synced_files" := Dir]> ∅))
    = Raise NotADirectoryError.
Proof. reflexivity. Qed.

Example replace_Z_ex : replace_Z "2024-01-01T00:00:00Z" = "2024-01-01T00:00:00+00:00".
Proof. reflexivity. Qed.

(** ** The monad *)

Section MonadFacts.
Context {S : Type}.

Lemma bind_ok {A B} (m : M S A) (k : A -> M S B) s s' a :
  m s = (s', Ok a) -> bind m k s = k a s'.
Proof. unfold bind. intros ->. reflexivity. Qed.

Lemma bind_raise {A B} (m : M S A) (k : A -> M S B) s s' e :
  m s = (s', Raise e) -> bind m k s = (s', Raise e).
Proof. unfold bind. intros ->. reflexivity. Qed.

Lemma try_ok {A} (m : M S A) h s s' a :
  m s = (s', Ok a) -> try_except m h s = (s', Ok a).
Proof. unfold try_except. intros ->. reflexivity. Qed.

Lemma try_raise {A} (m : M S A) h s s' e :
  m s = (s', Raise e) -> try_except m h s = h e s'.
Proof. unfold try_except. intros ->. reflexivity. Qed.

Lemma for_each_app {A} (xs ys : list A) (body : A -> M S unit) s :
  for_each (xs ++ ys) body s =
  bind (for_each xs body) (fun _ => for_each ys body) s.
Proof.
  revert s. induction xs as [|x xs IH]; intros s; simpl.
  - reflexivity.
  - unfold bind in *. destruct (body x s) as [s1 [[]|e]]; [apply IH | reflexivity].
Qed.

(** A loop whose body keeps an invariant, raising or not, keeps it. *)
Lemma for_each_invariant {A} (P : S -> Prop) (xs : list A) (body : A -> M S unit) :
  (forall x s, In x xs -> P s -> P (body x s).1) ->
  forall s, P s -> P (for_each xs body s).1.
Proof.
  induction xs as [|x xs IH]; intros Hbody s Hs; simpl; [exact Hs|].
  unfold bind. pose proof (Hbody x s (or_introl eq_refl) Hs) as H1.
  destruct (body x s) as [s1 [[]|e]]; simpl in *; [|exact H1].
  apply IH; [|exact H1]. intros y s2 Hy. apply Hbody. right. exact Hy.
Qed.

Lemma for_each_returns {A} (xs : list A) (body : A -> M S unit) :
  (forall x s, In x xs -> (body x s).2 = Ok tt) ->
  forall s, (for_each xs body s).2 = Ok tt.
Proof.
  induction xs as [|x xs IH]; intros Hbody s; simpl; [reflexivity|].
  unfold bind. pose proof (Hbody x s (or_introl eq_refl)) as H1.
  destruct (body x s) as [s1 [[]|e]]; simpl in *; [|discriminate].
  apply IH. intros y s2 Hy. apply Hbody. right. exact Hy.
Qed.

Lemma for_each_middle {A} (pre post : list A) (x : A) (body : A -> M S unit)
    s reach leave :
  for_each pre body s = (reach, Ok tt) ->
  body x reach = (leave, Ok tt) ->
  for_each (pre ++ x :: post) body s = for_each post body leave.
Proof.
  intros Hpre Hx. rewrite for_each_app. unfold bind at 1. rewrite Hpre.
  simpl. unfold bind. rewrite Hx. reflexivity.
Qed.

Lemma bind_invariant {A B} (P : S -> Prop) (m : M S A) (k : A -> M S B) s :
  P (m s).1 -> (forall a s', P s' -> P (k a s').1) -> P (bind m k s).1.
Proof.
  unfold bind. destruct (m s) as [s1 [a|e]]; simpl; intros H1 Hk;
    [apply Hk|]; exact H1.
Qed.

Lemma try_invariant {A} (P : S -> Prop) (m : M S A) (h : exn -> M S A) s :
  P (m s).1 -> (forall e s', P s' -> P (h e s').1) -> P (try_except m h s).1.
Proof.
  unfold try_except. destruct (m s) as [s1 [a|e]]; simpl; intros H1 Hh;
    [|apply Hh]; exact H1.
Qed.
End MonadFacts.

(** ** Dictionaries *)

Section DictFacts.
Context {V : Type}.
Implicit Types (d : dict V) (k : string) (v : V).

Lemma dict_get_set_eq k v d : dict_get k (dict_set k v d) = Some v.
Proof.
  induction d as [|[k' v'] d IH]; simpl.
  - rewrite bool_decide_eq_true_2; reflexivity.
  - case_bool_decide as Hk; simpl.
    + rewrite bool_decide_eq_true_2; reflexivity.
    + rewrite bool_decide_eq_false_2 by exact Hk. exact IH.
Qed.

Lemma dict_get_set_ne k k' v d : k <> k' -> dict_get k' (dict_set k v d) = dict_get k' d.
Proof.
  intros Hne. induction d as [|[k0 v0] d IH]; simpl.
  - rewrite bool_decide_eq_false_2; [reflexivity | exact Hne].
  - case_bool_decide as Hk; simpl.
    + subst k0. rewrite !bool_decide_eq_false_2 by exact Hne. reflexivity.
    + rewrite IH. reflexivity.
Qed.

Lemma dict_set_set k v1 v2 d : dict_set k v2 (dict_set k v1 d) = dict_set k v2 d.
Proof.
  induction d as [|[k' v'] d IH]; simpl.
  - rewrite bool_decide_eq_true_2; reflexivity.
  - case_bool_decide as Hk; simpl.
    + rewrite bool_decide_eq_true_2; reflexivity.
    + rewrite bool_decide_eq_false_2 by exact Hk. rewrite IH. reflexivity.
Qed.

Lemma dict_get_In k v d : dict_get k d = Some v -> In (k, v) d.
Proof.
  induction d as [|[k' v'] d IH]; simpl; [discriminate|].
  case_bool_decide as Hk.
  - intros [= ->]. subst. left. reflexivity.
  - intros H. right. apply IH, H.
Qed.

Lemma dict_get_None k d : dict_get k d = None <-> ~ In k (dict_keys d).
Proof.
  induction d as [|[k' v'] d IH]; simpl.
  - split; [intros _ [] | reflexivity].
  - case_bool_decide as Hk.
    + split; [discriminate | intros H; exfalso; apply H; left; exact Hk].
    + rewrite IH. split; [intros H [?|?]; [contradiction | apply H; assumption]
                         | intros H Hin; apply H; right; exact Hin].
Qed.

Lemma dict_mem_false k d : dict_mem k d = false <-> dict_get k d = None.
Proof. unfold dict_mem. destruct (dict_get k d); split; congruence. Qed.

Lemma dict_del_filter_comm k (p : string * V -> bool) d :
  dict_del k (List.filter p d) = List.filter p (dict_del k d).
Proof.
  unfold dict_del. induction d as [|x d IH]; simpl; [reflexivity|].
  destruct (p x) eqn:Hp, (negb (bool_decide (x.1 = k))) eqn:Hk; simpl;
    rewrite ?Hp, ?Hk, IH; reflexivity.
Qed.

Lemma dict_del_absent k d : dict_get k d = None -> dict_del k d = d.
Proof.
  unfold dict_del. induction d as [|[k' v'] d IH]; simpl; [reflexivity|].
  case_bool_decide as Hk; [discriminate|]. simpl. intros H. rewrite IH by exact H.
  reflexivity.
Qed.
Lemma dict_keys_set k v d k' :
  In k' (dict_keys (dict_set k v d)) -> k' = k \/ In k' (dict_keys d).
Proof.
  induction d as [|[k0 v0] d IH]; simpl.
  - intros [<-|[]]. left. reflexivity.
  - case_bool_decide as Hk; simpl.
    + intros [<-|H]; [left; reflexivity | right; right; exact H].
    + intros [<-|H]; [right; left; reflexivity|].
      destruct (IH H) as [->|H']; [left; reflexivity | right; right; exact H'].
Qed.

Lemma dict_get_app_absent k d1 d2 :
  ~ In k (dict_keys d1) -> dict_get k (d1 ++ d2)%list = dict_get k d2.
Proof.
  induction d1 as [|[k0 v0] d1 IH]; simpl; [reflexivity|]. intros H.
  rewrite bool_decide_eq_false_2 by (intros ->; apply H; left; reflexivity).
  apply IH. intros Hin. apply H. right. exact Hin.
Qed.

Lemma dict_nodup_middle k v d1 d2 :
  NoDup (dict_keys (d1 ++ (k, v) :: d2)%list) ->
  ~ In k (dict_keys d1) /\ ~ In k (dict_keys d2).
Proof.
  unfold dict_keys. rewrite map_app. simpl. intros (_ & Hdis & Hnd)%NoDup_app.
  apply NoDup_cons in Hnd as [Hnot _]. split.
  - intros Hin. apply list_elem_of_In in Hin. apply (Hdis k Hin). left.
  - intros Hin. apply Hnot. apply list_elem_of_In. exact Hin.
Qed.

Lemma dict_unique k v v' d :
  NoDup (dict_keys d) -> In (k, v) d -> In (k, v') d -> v = v'.
Proof.
  induction d as [|[k0 v0] d IH]; simpl; [intros _ []|].
  intros [Hnot Hnd]%NoDup_cons [H1|H1] [H2|H2].
  - congruence.
  - exfalso. apply Hnot. injection H1 as -> ->. apply list_elem_of_In.
    apply (in_map fst) in H2. exact H2.
  - exfalso. apply Hnot. injection H2 as -> ->. apply list_elem_of_In.
    apply (in_map fst) in H1. exact H1.
  - apply IH; assumption.
Qed.

Lemma filter_none (p : string * V -> bool) d :
  (forall x, In x d -> p x = false) -> List.filter p d = [].
Proof.
  induction d as [|x d IH]; simpl; [reflexivity|]. intros H.
  rewrite (H x) by (left; reflexivity). apply IH. intros y Hy. apply H. right. exact Hy.
Qed.

Lemma dict_get_filter_none k (p : string * V -> bool) d :
  (forall v, In (k, v) d -> p (k, v) = false) -> dict_get k (List.filter p d) = None.
Proof.
  induction d as [|[k0 v0] d IH]; simpl; [reflexivity|]. intros H.
  destruct (p (k0, v0)) eqn:Hp; simpl.
  - case_bool_decide as Hk.
    + subst k0. rewrite (H v0) in Hp by (left; reflexivity). discriminate.
    + apply IH. intros v Hv. apply H. right. exact Hv.
  - apply IH. intros v Hv. apply H. right. exact Hv.
Qed.

(** Deleting the keys of the entries that satisfy [p] leaves the entries
    that do not, when keys are unique. *)
Lemma filter_by_keys (p : string * V -> bool) d :
  NoDup (dict_keys d) ->
  List.filter (fun kv => negb (bool_decide (kv.1 ∈ dict_keys (List.filter p d)))) d
  = List.filter (fun kv => negb (p kv)) d.
Proof.
  intros Hnd. apply List.filter_ext_in. intros [k v] Hin. f_equal. simpl.
  destruct (p (k, v)) eqn:Hp.
  - apply bool_decide_eq_true_2. apply list_elem_of_In.
    apply (in_map fst (List.filter p d) (k, v)). apply List.filter_In. split; assumption.
  - apply bool_decide_eq_false_2. intros Hk%list_elem_of_In.
    apply in_map_iff in Hk as ([k' v'] & Hfst & Hin'). simpl in Hfst. subst k'.
    apply List.filter_In in Hin' as [Hin' Hp'].
    rewrite (dict_unique k v v' d Hnd Hin Hin') in Hp. congruence.
Qed.
End DictFacts.

(** ** Paths and their components *)

Section PathFacts.

Lemma string_app_cons (x : ascii) (a b : string) :
  String x a ++ b = String x (a ++ b).
Proof. reflexivity. Qed.

Lemma string_app_assoc (a b c : string) : (a ++ b) ++ c = a ++ (b ++ c).
Proof.
  induction a as [|x a IH]; [reflexivity|].
  rewrite !string_app_cons, IH. reflexivity.
Qed.

Lemma string_app_nil_r (a : string) : a ++ "" = a.
Proof.
  induction a as [|x a IH]; [reflexivity|]. rewrite string_app_cons, IH. reflexivity.
Qed.

Lemma split_sep_from_cons (acc p : string) :
  exists c rest, split_sep_from acc p = c :: rest.
Proof.
  revert acc. induction p as [|x p IH]; intros acc; cbn; [eauto|].
  destruct (is_slash x); [eauto | apply IH].
Qed.

Lemma is_slash_true (c : ascii) : is_slash c = true -> c = "/"%char.
Proof. unfold is_slash, slash. apply Ascii.eqb_eq. Qed.

(** Joining the components gives the path back. *)
Lemma join_split_from (acc p : string) :
  join_sep (split_sep_from acc p) = acc ++ p.
Proof.
  revert acc. induction p as [|x p IH]; intros acc; cbn [split_sep_from].
  - cbn [join_sep]. rewrite string_app_nil_r. reflexivity.
  - destruct (is_slash x) eqn:Hx.
    + apply is_slash_true in Hx. subst x.
      destruct (split_sep_from_cons "" p) as (c & rest & Hc).
      specialize (IH ""). rewrite Hc in *.
      change (join_sep (acc :: c :: rest)) with (acc ++ "/" ++ join_sep (c :: rest)).
      rewrite IH. reflexivity.
    + rewrite IH, string_app_assoc. reflexivity.
Qed.

Lemma join_split (p : string) : join_sep (split_sep p) = p.
Proof. apply (join_split_from "" p). Qed.

Lemma split_sep_from_app (acc a q : string) :
  split_sep_from acc (a ++ "/" ++ q) = (split_sep_from acc a ++ split_sep q)%list.
Proof.
  revert acc. induction a as [|x a IH]; intros acc.
  - reflexivity.
  - rewrite string_app_cons. cbn [split_sep_from].
    destruct (is_slash x); [rewrite IH; reflexivity | apply IH].
Qed.

Lemma join_sep_app (l1 l2 : list string) :
  l1 <> [] -> l2 <> [] -> join_sep (l1 ++ l2) = join_sep l1 ++ "/" ++ join_sep l2.
Proof.
  intros H1 H2. induction l1 as [|c l1 IH]; [contradiction|].
  destruct l1 as [|c' l1].
  - destruct l2 as [|d l2]; [contradiction|]. reflexivity.
  - change (join_sep ((c :: c' :: l1) ++ l2))
      with (c ++ "/" ++ join_sep ((c' :: l1) ++ l2)).
    rewrite IH by discriminate. cbn [join_sep].
    rewrite !string_app_assoc. reflexivity.
Qed.

Lemma prefix_app (a p : string) :
  String.prefix a p = true <-> exists q, p = a ++ q.
Proof.
  revert p. induction a as [|x a IH]; intros p.
  - destruct p; (split; [intros _; eexists; reflexivity | reflexivity]).
  - destruct p as [|y p]; cbn [String.prefix];
      [split; [discriminate | intros [q Hq]; rewrite string_app_cons in Hq; discriminate]|].
    destruct (ascii_dec x y) as [->|Hne].
    + rewrite IH. split; intros [q Hq]; exists q; rewrite string_app_cons in *; congruence.
    + split; [discriminate | intros [q Hq]; rewrite string_app_cons in Hq; congruence].
Qed.

(** [p] is [root] or below it just when its components start with those
    of [root]. *)
Lemma outside_components (root p : string) (x : node) :
  outside root (p, x) <-> ~ split_sep root `prefix_of` split_sep p.
Proof.
  unfold outside, under. cbn [fst]. split.
  - intros [Hne Hunder] [rest Hrest]. destruct rest as [|c rest].
    + apply Hne. rewrite app_nil_r in Hrest.
      rewrite <- (join_split p), <- (join_split root), Hrest. reflexivity.
    + assert (Hpre : String.prefix (root ++ "/") p = true).
      { apply prefix_app. exists (join_sep (c :: rest)).
        rewrite <- (join_split p), Hrest.
        destruct (split_sep_from_cons "" root) as (c0 & rest0 & Hroot).
        unfold split_sep. rewrite Hroot.
        rewrite join_sep_app by discriminate. rewrite <- Hroot.
        fold (split_sep root). rewrite join_split.
        rewrite string_app_assoc. reflexivity. }
      rewrite Hpre in Hunder. discriminate.
  - intros Hnot. split.
    + intros ->. apply Hnot. exists []. rewrite app_nil_r. reflexivity.
    + destruct (String.prefix (root ++ "/") p) eqn:Hpre; [|reflexivity].
      exfalso. apply Hnot. apply prefix_app in Hpre as [q ->].
      exists (split_sep q). rewrite string_app_assoc.
      apply (split_sep_from_app "" root q).
Qed.
End PathFacts.

(** ** The engine *)

Ltac unfold_m :=
  unfold update_file_content, list_files_in_folder, service_get,
    service_update, parse_time, get_local_file_hash, time_time, post,
    os_path_exists, update_record, store_record, fs_do, get_sync_status,
    save_sync_status, lift_res, call, bind, try_except, ret, raise in *.

Ltac proj_state :=
  cbn [remote fs clock sync_status status_file current_folder_id gui trace
       yields fst snd negb truthy] in *.

Ltac unfold_state :=
  unfold set_remote, set_fs, set_sync_status, set_status_file,
    set_current_folder_id, add_gui, add_trace, add_yield in *;
  cbn [remote fs clock sync_status status_file current_folder_id gui trace
       yields fst snd negb truthy] in *.

Section EngineFacts.
Context {R : Type}.
Variable svc : Service R.
Variable lib : Library.

(** *** What leaves the records alone *)

Lemma record_at_same (k : string) v (s s' : State R) :
  record_at k v s -> sync_status s' = sync_status s -> record_at k v s'.
Proof. unfold record_at. intros H Hs'. rewrite Hs'. exact H. Qed.

Lemma call_store {A} (q : request) (f : R -> R * res A) (s : State R) :
  sync_status (call q f s).1 = sync_status s.
Proof. unfold call. destruct (f (remote s)). reflexivity. Qed.

Lemma fs_do_store op (s : State R) : sync_status (fs_do op s).1 = sync_status s.
Proof. unfold fs_do. destruct (op (fs s)); reflexivity. Qed.

Lemma update_file_content_store (file_id path : string) (s : State R) :
  sync_status (update_file_content svc file_id path s).1 = sync_status s.
Proof.
  unfold update_file_content, bind. destruct (fs_read path (fs s)); [|reflexivity].
  apply call_store.
Qed.

Lemma update_record_other (k file_id : string) f v (s : State R) :
  k <> file_id -> record_at k v s -> record_at k v (update_record file_id f s).1.
Proof.
  unfold record_at, update_record. intros Hne H.
  destruct (dict_get file_id (sync_status s)); unfold_state; [|exact H].
  rewrite dict_get_set_ne by (intros Heq; apply Hne; symmetry; exact Heq). exact H.
Qed.

(** [download_file] touches the files, the remote state and the request
    log only; it raises only when the parent directories cannot be made,
    and it returns the path only after the chunk loop ran to its end. *)
Lemma download_file_frame (file_id file_name path : string) (s : State R) :
  let out := download_file svc file_id file_name path s in
  sync_status out.1 = sync_status s /\
  status_file out.1 = status_file s /\
  gui out.1 = gui s /\
  clock out.1 = clock s /\
  current_folder_id out.1 = current_folder_id s /\
  yields out.1 = yields s.
Proof.
  unfold download_file, next_chunks. unfold_m.
  destruct (fs_makedirs (os_path_dirname path) (fs s)) as [f1|e1]; unfold_state;
    [|repeat split; reflexivity].
  destruct (fs_open_wb path f1) as [f2|e2]; unfold_state;
    [|repeat split; reflexivity].
  destruct (media_download svc file_id (remote s)) as [r' [written [[]|e3]]];
    unfold_state; repeat split; reflexivity.
Qed.


(** *** The pull pass *)


(** An iteration of the pull pass never raises, so the pass runs to its end
    and saves the dictionary. *)
Lemma pull_item_returns (file_id : string) (status : SyncRecord) (s : State R) :
  (pull_item svc lib file_id status s).2 = Ok tt.
Proof.
  unfold pull_item. destruct (is_folder status); [reflexivity|].
  unfold try_except. match goal with |- (let (_, _) := ?m s in _).2 = _ =>
    destruct (m s) as [s' [[]|e]] end; reflexivity.
Qed.

Lemma pull_pass_returns (s : State R) :
  let out := check_and_sync_remote_changes svc lib s in
  out.2 = Ok tt /\ status_file out.1 = sync_status out.1.
Proof.
  unfold check_and_sync_remote_changes. unfold_m.
  pose proof (for_each_returns (sync_status s)
                (fun kv => pull_item svc lib kv.1 kv.2)
                (fun kv s0 _ => pull_item_returns kv.1 kv.2 s0) s) as H.
  destruct (for_each (sync_status s) (fun kv => pull_item svc lib kv.1 kv.2) s)
    as [s1 [[]|e]]; simpl in H; [|discriminate].
  unfold_state. split; reflexivity.
Qed.

(** When the metadata request of an iteration raises, the iteration changes
    neither the record dictionary nor the local files. *)
Lemma pull_item_request_failure
    (file_id : string) (status : SyncRecord) (s : State R) (r1 : R) (e : exn) :
  files_get svc file_id "modifiedTime, name" (remote s) = (r1, Raise e) ->
  let s' := (pull_item svc lib file_id status s).1 in
  sync_status s' = sync_status s /\ fs s' = fs s /\ gui s' = gui s.
Proof.
  intros Hget. unfold pull_item. destruct (is_folder status);
    [repeat split; reflexivity|].
  unfold_m. rewrite Hget. unfold_state. repeat split; reflexivity.
Qed.











(** *** The push pass *)

(** One iteration of the push pass on a file record whose local file
    exists with bytes [content]: the three branches. *)
Lemma push_item_branches
    (file_id : string) (status : SyncRecord) (s : State R)
    (content : list Byte.byte) :
  is_folder status = false ->
  fs s !! local_path status = Some (File content) ->
  let h := Some (sha1_hexdigest lib content) in
  (h = local_hash_at_sync status ->
     push_item svc lib file_id status s = (s, Ok tt)) /\
  (forall r1 md t1 t0,
     h <> local_hash_at_sync status ->
     files_get svc file_id "modifiedTime, name" (remote s) = (r1, Ok md) ->
     fromisoformat lib (replace_Z (m_modifiedTime md)) = Ok t1 ->
     fromisoformat lib (replace_Z (remote_modified_time status)) = Ok t0 ->
     datetime_gt t1 t0 = Ok true ->
     let s' := (push_item svc lib file_id status s).1 in
     (push_item svc lib file_id status s).2 = Ok tt /\
     gui s' = (gui s ++ [TreeStatus file_id (name status) KONFLIKT])%list /\
     trace s' = (trace s ++ [ReqGet file_id "modifiedTime, name"])%list /\
     sync_status s' = sync_status s /\
     fs s' = fs s) /\
  (forall r1 md t1 t0 r2 uploaded r3 md',
     h <> local_hash_at_sync status ->
     files_get svc file_id "modifiedTime, name" (remote s) = (r1, Ok md) ->
     fromisoformat lib (replace_Z (m_modifiedTime md)) = Ok t1 ->
     fromisoformat lib (replace_Z (remote_modified_time status)) = Ok t0 ->
     datetime_gt t1 t0 = Ok false ->
     files_update svc file_id content r1 = (r2, Ok uploaded) ->
     files_get svc file_id "modifiedTime" r2 = (r3, Ok md') ->
     dict_get file_id (sync_status s) = Some status ->
     let s' := (push_item svc lib file_id status s).1 in
     (push_item svc lib file_id status s).2 = Ok tt /\
     trace s' = (trace s ++ [ReqGet file_id "modifiedTime, name";
                             ReqUpdate file_id content;
                             ReqGet file_id "modifiedTime"])%list /\
     remote s' = r3 /\
     sync_status s' =
       dict_set file_id (pushed status (clock s) h (m_modifiedTime md'))
                (sync_status s) /\
     gui s' = (gui s ++ [TreeStatus file_id (name status) NAHRANO])%list /\
     fs s' = fs s).
Proof.
  intros Hfile Hlocal h.
  assert (Hex : fs_exists (local_path status) (fs s) = true).
  { unfold fs_exists. apply bool_decide_eq_true_2. rewrite Hlocal. eauto. }
  assert (Hhash : file_hash lib (fs s) (local_path status) = Ok h).
  { unfold file_hash, fs_read. rewrite Hlocal. reflexivity. }
  split; [|split].
  - intros Heq. unfold push_item. rewrite Hfile. unfold_m. rewrite Hex. simpl.
    rewrite Hhash. rewrite bool_decide_eq_true_2 by exact Heq. reflexivity.
  - intros r1 md t1 t0 Hne Hget Ht1 Ht0 Hgt.
    unfold push_item. rewrite Hfile. unfold_m. rewrite Hex. simpl.
    rewrite Hhash. rewrite bool_decide_eq_false_2 by exact Hne. simpl.
    rewrite Hget. unfold_state. rewrite Ht1, Ht0, Hgt. unfold_state.
    repeat split; reflexivity.
  - intros r1 md t1 t0 r2 uploaded r3 md' Hne Hget Ht1 Ht0 Hgt Hup Hget' Hrec.
    unfold push_item. rewrite Hfile. unfold_m. rewrite Hex. simpl.
    rewrite Hhash. rewrite bool_decide_eq_false_2 by exact Hne. simpl.
    rewrite Hget. unfold_state. rewrite Ht1, Ht0, Hgt. unfold_state.
    unfold fs_read. rewrite Hlocal. rewrite Hup. unfold_state.
    rewrite Hget'. unfold_state. rewrite Hrec. unfold_state.
    do 2 (rewrite dict_get_set_eq; unfold_state).
    rewrite !dict_set_set. rewrite <- !app_assoc.
    repeat split; reflexivity.
Qed.

(** An iteration changes no record but its own. *)
Lemma push_item_other_records (k file_id : string) (status : SyncRecord) v
    (s : State R) :
  k <> file_id -> record_at k v s ->
  record_at k v (push_item svc lib file_id status s).1.
Proof.
  intros Hne Hs. unfold push_item. destruct (is_folder status); [exact Hs|].
  apply bind_invariant; [exact Hs|]. intros [|] s1 Hs1; cbn [negb]; [|exact Hs1].
  apply bind_invariant; [exact Hs1|]. intros current s2 Hs2.
  destruct (negb (bool_decide (current = local_hash_at_sync status))); [|exact Hs2].
  apply try_invariant; [|intros; assumption].
  apply bind_invariant;
    [eapply record_at_same; [exact Hs2 | apply call_store]|]. intros md s3 Hs3.
  apply bind_invariant; [exact Hs3|]. intros current_time s4 Hs4.
  apply bind_invariant; [exact Hs4|]. intros last_time s5 Hs5.
  apply bind_invariant; [exact Hs5|]. intros [|] s6 Hs6; [exact Hs6|].
  apply bind_invariant;
    [eapply record_at_same; [exact Hs6 | apply update_file_content_store]|].
  intros _ s7 Hs7.
  apply bind_invariant;
    [eapply record_at_same; [exact Hs7 | apply call_store]|]. intros after s8 Hs8.
  apply bind_invariant; [exact Hs8|]. intros now s9 Hs9.
  apply bind_invariant; [apply update_record_other; assumption|]. intros _ s10 Hs10.
  apply bind_invariant; [apply update_record_other; assumption|]. intros _ s11 Hs11.
  apply bind_invariant; [apply update_record_other; assumption|]. intros _ s12 Hs12.
  exact Hs12.
Qed.

Lemma push_items_other_records (k : string) v (items : dict SyncRecord)
    (s : State R) :
  ~ In k (dict_keys items) -> record_at k v s ->
  record_at k v (for_each items (fun kv => push_item svc lib kv.1 kv.2) s).1.
Proof.
  intros Hk. apply for_each_invariant. intros [k' st] s' Hin Hs'.
  apply push_item_other_records; [|exact Hs'].
  intros ->. apply Hk. apply (in_map fst) in Hin. exact Hin.
Qed.

(** A record of the push pass: found as the dictionary held it when the
    pass began, and ending the pass as its own iteration left it. *)
Lemma push_pass_record
    (s : State R) (pre post : dict SyncRecord) (file_id : string)
    (status : SyncRecord) (reach leave : State R) :
  sync_status s = (pre ++ (file_id, status) :: post)%list ->
  NoDup (dict_keys (sync_status s)) ->
  for_each pre (fun kv => push_item svc lib kv.1 kv.2) s = (reach, Ok tt) ->
  push_item svc lib file_id status reach = (leave, Ok tt) ->
  record_at file_id (Some status) reach /\
  forall v, record_at file_id v leave ->
            record_at file_id v (check_and_sync_local_changes svc lib s).1.
Proof.
  intros Hstore Hnd Hpre Hitem.
  rewrite Hstore in Hnd. apply dict_nodup_middle in Hnd as [Hk_pre Hk_post]. split.
  - pose proof (push_items_other_records file_id (Some status) pre s Hk_pre) as H.
    rewrite Hpre in H. apply H. unfold record_at.
    rewrite Hstore, dict_get_app_absent by exact Hk_pre. simpl.
    rewrite bool_decide_eq_true_2; reflexivity.
  - intros v Hleave.
    pose proof (push_items_other_records file_id v post leave Hk_post Hleave) as Hlast.
    unfold check_and_sync_local_changes. unfold_m.
    rewrite Hstore at 1.
    rewrite (for_each_middle pre post (file_id, status)
               (fun kv => push_item svc lib kv.1 kv.2) s reach leave Hpre Hitem).
    destruct (for_each post (fun kv => push_item svc lib kv.1 kv.2) leave)
      as [last [[]|e]]; exact Hlast.
Qed.

(** C3.  A push pass over a dictionary with unique keys that holds the file
    record [status] under [file_id], whose local file exists with bytes
    [content] when the loop comes to it, in state [reach]; [leave] is the
    state in which the loop goes on.  Provided the requests of the branch
    taken succeed:
    (1) same hash as at the last sync: nothing happens, the record stays;
    (2) other hash and a remote time strictly later than the recorded one:
        status KONFLIKT, the only request is the metadata request (nothing
        is uploaded), files unchanged, the record stays;
    (3) other hash and a remote time not later: the local bytes are
        uploaded, and the record ends the pass with the modified time read
        after the upload, the current local hash and the current time. *)
Theorem push_pass_cases
    (s : State R) (pre post : dict SyncRecord)
    (file_id : string) (status : SyncRecord) (reach : State R)
    (content : list Byte.byte) :
  sync_status s = (pre ++ (file_id, status) :: post)%list ->
  NoDup (dict_keys (sync_status s)) ->
  for_each pre (fun kv => push_item svc lib kv.1 kv.2) s = (reach, Ok tt) ->
  is_folder status = false ->
  fs reach !! local_path status = Some (File content) ->
  let h := Some (sha1_hexdigest lib content) in
  let leave := (push_item svc lib file_id status reach).1 in
  let out := check_and_sync_local_changes svc lib s in
  (h = local_hash_at_sync status ->
     leave = reach /\
     dict_get file_id (sync_status out.1) = Some status) /\
  (forall r1 md t1 t0,
     h <> local_hash_at_sync status ->
     files_get svc file_id "modifiedTime, name" (remote reach) = (r1, Ok md) ->
     fromisoformat lib (replace_Z (m_modifiedTime md)) = Ok t1 ->
     fromisoformat lib (replace_Z (remote_modified_time status)) = Ok t0 ->
     datetime_gt t1 t0 = Ok true ->
     gui leave = (gui reach ++ [TreeStatus file_id (name status) KONFLIKT])%list /\
     trace leave = (trace reach ++ [ReqGet file_id "modifiedTime, name"])%list /\
     fs leave = fs reach /\
     dict_get file_id (sync_status out.1) = Some status) /\
  (forall r1 md t1 t0 r2 uploaded r3 md',
     h <> local_hash_at_sync status ->
     files_get svc file_id "modifiedTime, name" (remote reach) = (r1, Ok md) ->
     fromisoformat lib (replace_Z (m_modifiedTime md)) = Ok t1 ->
     fromisoformat lib (replace_Z (remote_modified_time status)) = Ok t0 ->
     datetime_gt t1 t0 = Ok false ->
     files_update svc file_id content r1 = (r2, Ok uploaded) ->
     files_get svc file_id "modifiedTime" r2 = (r3, Ok md') ->
     trace leave = (trace reach ++ [ReqGet file_id "modifiedTime, name";
                                    ReqUpdate file_id content;
                                    ReqGet file_id "modifiedTime"])%list /\
     remote leave = r3 /\
     gui leave = (gui reach ++ [TreeStatus file_id (name status) NAHRANO])%list /\
     fs leave = fs reach /\
     dict_get file_id (sync_status out.1) =
       Some (pushed status (clock reach) h (m_modifiedTime md'))).
Proof.
  intros Hstore Hnd Hpre Hfile Hlocal h leave out.
  destruct (push_item_branches file_id status reach content Hfile Hlocal)
    as (Hsame & Hconflict & Hupload).
  fold h in Hsame, Hconflict, Hupload.
  assert (Hpass : forall (Hitem : push_item svc lib file_id status reach = (leave, Ok tt)),
            record_at file_id (Some status) reach /\
            forall v, record_at file_id v leave -> record_at file_id v out.1).
  { intros Hitem. exact (push_pass_record s pre post file_id status reach leave
                           Hstore Hnd Hpre Hitem). }
  split; [|split].
  - intros Heq. specialize (Hsame Heq).
    assert (Hleave : leave = reach) by (subst leave; rewrite Hsame; reflexivity).
    split; [exact Hleave|].
    destruct Hpass as [Hreach Hend]; [rewrite Hleave; exact Hsame|].
    apply Hend. rewrite Hleave. exact Hreach.
  - intros r1 md t1 t0 Hne Hget Ht1 Ht0 Hgt.
    destruct (Hconflict r1 md t1 t0 Hne Hget Ht1 Ht0 Hgt)
      as (Hok & Hgui & Htrace & Hstay & Hfs).
    fold leave in Hgui, Htrace, Hstay, Hfs.
    destruct Hpass as [Hreach Hend].
    { subst leave. destruct (push_item svc lib file_id status reach) as [s1 [[]|e]];
        simpl in Hok; [reflexivity | discriminate]. }
    repeat split; try assumption.
    apply Hend. eapply record_at_same; [exact Hreach | exact Hstay].
  - intros r1 md t1 t0 r2 uploaded r3 md' Hne Hget Ht1 Ht0 Hgt Hup Hget'.
    assert (Hreach : record_at file_id (Some status) reach).
    { pose proof (push_items_other_records file_id (Some status) pre s) as H.
      rewrite Hstore in Hnd. apply dict_nodup_middle in Hnd as [Hk_pre _].
      rewrite Hpre in H. apply H; [exact Hk_pre|]. unfold record_at.
      rewrite Hstore, dict_get_app_absent by exact Hk_pre. simpl.
      rewrite bool_decide_eq_true_2; reflexivity. }
    destruct (Hupload r1 md t1 t0 r2 uploaded r3 md' Hne Hget Ht1 Ht0 Hgt Hup Hget'
                Hreach)
      as (Hok & Htrace & Hremote & Hrec & Hgui & Hfs).
    fold leave in Htrace, Hremote, Hrec, Hgui, Hfs.
    destruct Hpass as [_ Hend].
    { subst leave. destruct (push_item svc lib file_id status reach) as [s1 [[]|e]];
        simpl in Hok; [reflexivity | discriminate]. }
    repeat split; try assumption.
    apply Hend. unfold record_at. rewrite Hrec. apply dict_get_set_eq.
Qed.

(** *** Downloading and tracking *)


(** *** Untracking *)

Lemma without_keys_nil (d : dict SyncRecord) : without_keys [] d = d.
Proof.
  unfold without_keys. induction d as [|x d IH]; [reflexivity|].
  cbn [List.filter]. rewrite bool_decide_eq_false_2 by apply not_elem_of_nil.
  cbn [negb]. rewrite IH. reflexivity.
Qed.

Lemma without_keys_cons k ks (d : dict SyncRecord) :
  without_keys ks (dict_del k d) = without_keys (k :: ks) d.
Proof.
  unfold without_keys, dict_del. induction d as [|[k' v] d IH]; [reflexivity|].
  cbn [List.filter fst].
  destruct (bool_decide_reflect (k' = k)) as [->|Hk]; cbn [negb List.filter fst].
  - rewrite (bool_decide_eq_true_2 (k ∈ k :: ks)) by apply list_elem_of_here.
    cbn [negb]. exact IH.
  - rewrite IH.
    destruct (bool_decide_reflect (k' ∈ ks)) as [Hin|Hin].
    + rewrite (bool_decide_eq_true_2 (k' ∈ k :: ks))
        by (apply list_elem_of_further, Hin). reflexivity.
    + rewrite (bool_decide_eq_false_2 (k' ∈ k :: ks)); [reflexivity|].
      intros [?|?]%elem_of_cons; [apply Hk; assumption | contradiction].
Qed.

(** The deleting loop of [_recursively_unsync]. *)
Lemma unsync_loop (ks : list string) (s : State R) :
  for_each ks (fun fid s0 =>
      if dict_mem fid (sync_status s0)
      then (set_sync_status (dict_del fid (sync_status s0)) s0, Ok tt)
      else (s0, Ok tt)) s
  = (set_sync_status (without_keys ks (sync_status s)) s, Ok tt).
Proof.
  revert s. induction ks as [|k ks IH]; intros s; simpl.
  - rewrite without_keys_nil. destruct s; reflexivity.
  - unfold bind. destruct (dict_mem k (sync_status s)) eqn:Hm.
    + rewrite IH. unfold_state. rewrite without_keys_cons. reflexivity.
    + rewrite IH. rewrite <- without_keys_cons.
      apply dict_mem_false in Hm. rewrite dict_del_absent by exact Hm. reflexivity.
Qed.

(** [_recursively_unsync], step by step. *)
Lemma unsync_unfold (drive_id : string) (s : State R) :
  _recursively_unsync drive_id s =
  match unsync_local (sync_status s) drive_id (fs s) with
  | Raise e => (s, Raise e)
  | Ok f =>
      let d := without_keys
                 (dict_keys (List.filter (matches_root drive_id) (sync_status s)))
                 (sync_status s) in
      (mkState (remote s) f (clock s) d d (current_folder_id s)
               (gui s) (trace s) (yields s), Ok tt)
  end.
Proof.
  destruct s as [r f c d sf cf g t y]. unfold unsync_local. proj_state.
  unfold _recursively_unsync. unfold_m. proj_state.
  destruct (dict_get drive_id d) as [status|] eqn:Hd.
  2:{ proj_state. rewrite unsync_loop. reflexivity. }
  destruct (is_folder status) eqn:Hf;
    destruct (fs_exists (local_path status) f) eqn:He; proj_state;
    rewrite ?He; proj_state.
  - destruct (fs_rmtree (local_path status) f); proj_state;
      rewrite unsync_loop; reflexivity.
  - rewrite unsync_loop. reflexivity.
  - destruct (fs_remove (local_path status) f); proj_state;
      [rewrite unsync_loop|]; reflexivity.
  - rewrite unsync_loop. reflexivity.
Qed.

(** C8.  [_recursively_unsync] on a dictionary with unique keys, when the
    local files sit at plain paths and so does the local path of the record
    of [drive_id] (there the map of paths stands for the directory tree),
    and the local replica of [drive_id] has the kind its record says (a
    folder record's path is no regular file, a file record's path no
    directory): the call returns normally; the dictionary keeps exactly
    the entries that neither have [drive_id] as key nor as [drive_root_id],
    so none with that root remains; the saved copy is the new dictionary;
    and the local path of the record of [drive_id] is deleted, with
    everything below it for a folder record, and nothing else: what is
    left sits at plain paths as before, and for a folder record with a
    local directory the entries gone are those whose components start
    with the components of its local path. *)
Theorem unsync_removes_subtree (drive_id : string) (s : State R) :
  NoDup (dict_keys (sync_status s)) ->
  plain_fs (fs s) ->
  (forall status, dict_get drive_id (sync_status s) = Some status ->
     plain_path (local_path status) = true) ->
  (forall status, dict_get drive_id (sync_status s) = Some status ->
     if is_folder status then is_file (fs s !! local_path status) = false
     else is_dir (fs s !! local_path status) = false) ->
  let out := _recursively_unsync drive_id s in
  out.2 = Ok tt /\
  sync_status out.1 =
    List.filter (fun kv => negb (matches_root drive_id kv)) (sync_status s) /\
  (forall k rec, In (k, rec) (sync_status out.1) ->
     drive_root_id rec <> drive_id /\ k <> drive_id) /\
  status_file out.1 = sync_status out.1 /\
  fs out.1 =
    match dict_get drive_id (sync_status s) with
    | None => fs s
    | Some status =>
        if is_folder status then
          if is_dir (fs s !! local_path status)
          then filter (outside (local_path status)) (fs s)
          else fs s
        else delete (local_path status) (fs s)
    end /\
  plain_fs (fs out.1) /\
  (forall status, dict_get drive_id (sync_status s) = Some status ->
     is_folder status = true -> is_dir (fs s !! local_path status) = true ->
     forall p, fs out.1 !! p =
       if bool_decide (split_sep (local_path status) `prefix_of` split_sep p)
       then None else fs s !! p).
Proof.
  intros Hnd Hplain _ Hkind out. subst out. rewrite unsync_unfold.
  assert (Hlocal : unsync_local (sync_status s) drive_id (fs s) =
            Ok match dict_get drive_id (sync_status s) with
               | None => fs s
               | Some status =>
                   if is_folder status then
                     if is_dir (fs s !! local_path status)
                     then filter (outside (local_path status)) (fs s)
                     else fs s
                   else delete (local_path status) (fs s)
               end).
  { unfold unsync_local.
    destruct (dict_get drive_id (sync_status s)) as [status|]; [|reflexivity].
    specialize (Hkind status eq_refl). unfold fs_exists, fs_rmtree, fs_remove.
    destruct (is_folder status);
      destruct (fs s !! local_path status) as [[content|]|] eqn:Hp;
      simpl in Hkind; try discriminate.
    - rewrite bool_decide_eq_true_2 by eauto. reflexivity.
    - rewrite bool_decide_eq_false_2 by (intros [? ?]; discriminate). reflexivity.
    - rewrite bool_decide_eq_true_2 by eauto. reflexivity.
    - rewrite bool_decide_eq_false_2 by (intros [? ?]; discriminate).
      rewrite delete_id by exact Hp. reflexivity. }
  rewrite Hlocal. proj_state. unfold without_keys.
  rewrite filter_by_keys by exact Hnd.
  assert (Hleft : plain_fs
            match dict_get drive_id (sync_status s) with
            | None => fs s
            | Some status =>
                if is_folder status then
                  if is_dir (fs s !! local_path status)
                  then filter (outside (local_path status)) (fs s)
                  else fs s
                else delete (local_path status) (fs s)
            end).
  { destruct (dict_get drive_id (sync_status s)) as [status|]; [|exact Hplain].
    destruct (is_folder status).
    - destruct (is_dir (fs s !! local_path status)); [|exact Hplain].
      intros q x [Hq _]%map_lookup_filter_Some. apply (Hplain q x Hq).
    - apply map_Forall_delete, Hplain. }
  split; [reflexivity|]. split; [reflexivity|]. split; [|split; [reflexivity|]].
  2:{ split; [reflexivity|]. split; [exact Hleft|].
      intros status Hstatus Hfolder Hdir p. rewrite Hstatus, Hfolder, Hdir.
      destruct (fs s !! p) as [x|] eqn:Hp.
      - case_bool_decide as Hpre.
        + apply map_lookup_filter_None. right. intros x' _ Hout.
          apply outside_components in Hout. contradiction.
        + apply map_lookup_filter_Some. split; [exact Hp|].
          apply outside_components. exact Hpre.
      - assert (Hgone : filter (outside (local_path status)) (fs s) !! p = None)
          by (apply map_lookup_filter_None; left; exact Hp).
        rewrite Hgone. destruct (bool_decide _); reflexivity. }
  intros k rec H. split.
  - apply List.filter_In in H as [_ Hm]. unfold matches_root in Hm. simpl in Hm.
    intros Heq. rewrite bool_decide_eq_true_2 in Hm by exact Heq. discriminate.
  - apply List.filter_In in H as [_ Hm]. unfold matches_root in Hm. simpl in Hm.
    intros Heq. rewrite (bool_decide_eq_true_2 (k = drive_id)) in Hm by exact Heq.
    rewrite orb_true_r in Hm. discriminate.
Qed.

(** C10 (amended).  Calling [_recursively_unsync] again on the state the
    first call leaves gives that same state and outcome; and on an id that
    is neither a key of the dictionary nor the [drive_root_id] of any
    record, the call returns normally and leaves dictionary, local files
    and everything but the saved copy as they were. *)
Theorem unsync_twice (drive_id : string) (s : State R) :
  (let out := _recursively_unsync drive_id s in
   _recursively_unsync drive_id out.1 = out) /\
  (dict_get drive_id (sync_status s) = None ->
   (forall k rec, In (k, rec) (sync_status s) -> drive_root_id rec <> drive_id) ->
   _recursively_unsync drive_id s = (set_status_file (sync_status s) s, Ok tt)).
Proof.
  split.
  - cbv zeta. rewrite (unsync_unfold drive_id s).
    destruct (unsync_local (sync_status s) drive_id (fs s)) as [f|e] eqn:Hl.
    2:{ proj_state. rewrite unsync_unfold, Hl. reflexivity. }
    cbv zeta. proj_state. rewrite unsync_unfold. proj_state.
    set (d := sync_status s) in *.
    set (ks := dict_keys (List.filter (matches_root drive_id) d)).
    assert (Hgone : dict_get drive_id (without_keys ks d) = None).
    { apply dict_get_filter_none. intros v Hv.
      rewrite bool_decide_eq_true_2; [reflexivity|]. apply list_elem_of_In.
      apply (in_map fst (List.filter (matches_root drive_id) d) (drive_id, v)).
      apply List.filter_In. split; [exact Hv|]. unfold matches_root. simpl.
      rewrite (bool_decide_eq_true_2 (drive_id = drive_id)) by reflexivity.
      apply orb_true_r. }
    assert (Hnone : List.filter (matches_root drive_id) (without_keys ks d) = []).
    { apply filter_none. intros [k v] Hin.
      apply List.filter_In in Hin as [Hin Hk]. simpl in Hk.
      destruct (matches_root drive_id (k, v)) eqn:Hm; [|reflexivity].
      exfalso. rewrite bool_decide_eq_true_2 in Hk; [discriminate|].
      apply list_elem_of_In.
      apply (in_map fst (List.filter (matches_root drive_id) d) (k, v)).
      apply List.filter_In. split; assumption. }
    unfold unsync_local. rewrite Hgone, Hnone. simpl dict_keys.
    rewrite without_keys_nil. reflexivity.
  - intros Hget Hroot. rewrite unsync_unfold. unfold unsync_local. rewrite Hget.
    assert (Hnone : List.filter (matches_root drive_id) (sync_status s) = []).
    { apply filter_none. intros [k v] Hin. unfold matches_root. simpl.
      rewrite bool_decide_eq_false_2 by (apply (Hroot k v Hin)).
      rewrite bool_decide_eq_false_2; [reflexivity|]. intros ->.
      apply (in_map fst) in Hin. simpl in Hin.
      apply dict_get_None in Hget. contradiction. }
    rewrite Hnone. simpl dict_keys. rewrite without_keys_nil.
    destruct s; reflexivity.
Qed.

(** *** Tracking roots *)

(** [download_and_track] leaves the dictionary alone or stores one record
    under [file_id], whose root is [sync_root_id]. *)
Lemma download_and_track_store
    (file_id file_name : string) (folder : bool) (rel full root : string)
    (s : State R) :
  let out := download_and_track svc lib file_id file_name folder rel full root s in
  sync_status out.1 = sync_status s \/
  (out.2 = Ok true /\
   exists rec, drive_root_id rec = root /\
               sync_status out.1 = dict_set file_id rec (sync_status s)).
Proof.
  unfold download_and_track, download_file, next_chunks. unfold_m.
  destruct folder.
  - destruct (fs_makedirs full (fs s)) as [f|e]; unfold_state.
    + right. split; [reflexivity|]. eexists. split; [|reflexivity]. reflexivity.
    + left. reflexivity.
  - destruct (files_get svc file_id "modifiedTime" (remote s)) as [r1 [md|e]];
      unfold_state; [|left; reflexivity].
    destruct (fs_makedirs (os_path_dirname full) (fs s)) as [f1|e1];
      unfold_state; [|left; reflexivity].
    destruct (fs_open_wb full f1) as [f2|e2]; unfold_state; [|left; reflexivity].
    destruct (media_download svc file_id r1) as [r2 [written [[]|e3]]];
      unfold_state; [|left; reflexivity].
    destruct (negb (bool_decide (full = ""))); unfold_state; [|left; reflexivity].
    destruct (file_hash lib (<[full:=File written]> f2) full) as [h|e4];
      unfold_state; [|left; reflexivity].
    right. split; [reflexivity|]. eexists. split; [|reflexivity]. reflexivity.
Qed.

(** After its [download_and_track], [track_yielded] only writes to the
    tree view. *)
Lemma track_yielded_state (root : string) (f : file_meta) (rel full : string)
    (s : State R) :
  let s1 := (download_and_track svc lib (m_id f) (m_name f) (meta_is_folder f)
                                rel full root s).1 in
  let s2 := (track_yielded svc lib root f rel full s).1 in
  remote s2 = remote s1 /\ fs s2 = fs s1 /\ sync_status s2 = sync_status s1 /\
  status_file s2 = status_file s1 /\ trace s2 = trace s1 /\ yields s2 = yields s1.
Proof.
  unfold track_yielded. unfold_m.
  destruct (download_and_track svc lib (m_id f) (m_name f) (meta_is_folder f)
                               rel full root s) as [s' [b|e]]; proj_state;
    [|repeat split; reflexivity].
  destruct (meta_is_folder f); unfold_state; repeat split; reflexivity.
Qed.

Lemma track_yielded_store (root : string) (f : file_meta) (rel full : string)
    (s : State R) :
  sync_status (track_yielded svc lib root f rel full s).1 =
  sync_status (download_and_track svc lib (m_id f) (m_name f) (meta_is_folder f)
                                  rel full root s).1.
Proof. apply (track_yielded_state root f rel full s). Qed.

(** The requests of [download_and_track]: the metadata and the content of
    the item, nothing else; the remote state changes only through them. *)
Lemma download_and_track_effects
    (file_id file_name : string) (folder : bool) (rel full root : string)
    (s : State R) (Q : R -> Prop) :
  (forall fields r, Q r -> Q (files_get svc file_id fields r).1) ->
  (forall r, Q r -> Q (media_download svc file_id r).1) ->
  let out := download_and_track svc lib file_id file_name folder rel full root s in
  yields out.1 = yields s /\
  (Q (remote s) -> Q (remote out.1)) /\
  (forall q, In q (trace out.1) ->
     In q (trace s) \/ q = ReqGet file_id "modifiedTime" \/ q = ReqMedia file_id).
Proof.
  intros Hget Hmedia. unfold download_and_track, download_file, next_chunks.
  unfold_m.
  destruct folder.
  - destruct (fs_makedirs full (fs s)); unfold_state;
      (split; [reflexivity|split; [auto|intros q Hq; left; exact Hq]]).
  - split; [|split]; [| intros HQ | ].
    all: specialize (Hget "modifiedTime" (remote s)).
    all: destruct (files_get svc file_id "modifiedTime" (remote s)) as [r1 [md|e]];
      unfold_state; try reflexivity; try (apply Hget, HQ).
    all: try (intros q; rewrite in_app_iff; simpl; intuition (subst; auto); fail).
    all: destruct (fs_makedirs (os_path_dirname full) (fs s)) as [f1|e1];
      unfold_state; try reflexivity; try (apply Hget, HQ).
    all: try (intros q; rewrite in_app_iff; simpl; intuition (subst; auto); fail).
    all: destruct (fs_open_wb full f1) as [f2|e2];
      unfold_state; try reflexivity; try (apply Hget, HQ).
    all: try (intros q; rewrite in_app_iff; simpl; intuition (subst; auto); fail).
    all: specialize (Hmedia r1).
    all: destruct (media_download svc file_id r1) as [r2 [written [[]|e3]]];
      unfold_state; try reflexivity; try (apply Hmedia, Hget, HQ).
    all: try (intros q; rewrite !in_app_iff; simpl; intuition (subst; auto); fail).
    all: destruct (negb (bool_decide (full = "")));
      unfold_state; try reflexivity; try (apply Hmedia, Hget, HQ).
    all: try (intros q; rewrite !in_app_iff; simpl; intuition (subst; auto); fail).
    all: destruct (file_hash lib (<[full:=File written]> f2) full);
      unfold_state; try reflexivity; try (apply Hmedia, Hget, HQ).
    all: try (intros q; rewrite !in_app_iff; simpl; intuition (subst; auto); fail).
Qed.

(** The walker keeps every property of the state that listing a folder,
    logging a yield and the consumer keep. *)
Lemma walk_invariant (P : State R -> Prop)
    (consume : file_meta -> string -> string -> M (State R) unit) :
  (forall folder s, P s -> P (list_files_in_folder svc folder s).1) ->
  (forall y s, P s -> P (add_yield y s)) ->
  (forall f rel full s, P s -> P (consume f rel full s).1) ->
  forall depth drive_id prefix root s,
    P s -> P (_recursively_get_folder_content svc depth drive_id prefix root consume s).1.
Proof.
  intros Hlist Hyield Hcons. induction depth as [|depth IH];
    intros drive_id prefix root s Hs; simpl; [exact Hs|].
  apply bind_invariant.
  - apply try_invariant; [|intros; assumption].
    apply bind_invariant; [apply Hlist, Hs | intros; assumption].
  - intros [files|] s1 Hs1; [|exact Hs1].
    apply for_each_invariant; [|exact Hs1]. intros f s2 _ Hs2.
    apply bind_invariant; [apply Hyield, Hs2|]. intros _ s3 Hs3.
    apply bind_invariant; [apply Hcons, Hs3|]. intros _ s4 Hs4.
    destruct (meta_is_folder f); [apply IH, Hs4 | exact Hs4].
Qed.

Lemma own_root_set (id k : string) (rec : SyncRecord) (s s' : State R) :
  own_root id s -> drive_root_id rec = id ->
  sync_status s' = dict_set k rec (sync_status s) -> own_root id s'.
Proof.
  intros (rec0 & Hget & Hroot) Hrec Hs'. unfold own_root. rewrite Hs'.
  destruct (decide (k = id)) as [->|Hne].
  - exists rec. rewrite dict_get_set_eq. split; [reflexivity | exact Hrec].
  - exists rec0. rewrite dict_get_set_ne by exact Hne. split; assumption.
Qed.

Lemma own_root_same (id : string) (s s' : State R) :
  own_root id s -> sync_status s' = sync_status s -> own_root id s'.
Proof. unfold own_root. intros H Hs'. rewrite Hs'. exact H. Qed.

Lemma track_yielded_own_root (id : string) (f : file_meta) (rel full : string)
    (s : State R) :
  own_root id s -> own_root id (track_yielded svc lib id f rel full s).1.
Proof.
  intros Hs.
  destruct (download_and_track_store (m_id f) (m_name f) (meta_is_folder f)
                                     rel full id s)
    as [Hsame | (_ & rec & Hroot & Hset)].
  - eapply own_root_same; [exact Hs|]. rewrite track_yielded_store. exact Hsame.
  - eapply own_root_set; [exact Hs | exact Hroot |].
    rewrite track_yielded_store. exact Hset.
Qed.

(** C6 (amended).  The record that [_start_recursive_sync] makes for the
    folder it is started on names that folder as its root, whenever its
    local directory can be created; the record that [toggle_sync] makes
    for a single file names as root the folder the browser shows
    ([current_folder_id]), not the file. *)
Theorem tracking_roots :
  (forall depth id folder_name (s : State R) f',
     fs_makedirs (os_path_join SYNC_DIR folder_name) (fs s) = Ok f' ->
     own_root id (_start_recursive_sync svc lib depth id folder_name s).1) /\
  (forall depth file_id name ftype shown answer (s : State R) rec,
     dict_mem file_id (sync_status s) = false ->
     ftype <> "Folder" ->
     dict_get file_id
       (sync_status (toggle_sync svc lib depth file_id name ftype shown answer s).1)
       = Some rec ->
     drive_root_id rec = current_folder_id s).
Proof.
  split.
  - intros depth id folder_name s f' Hmk.
    unfold _start_recursive_sync.
    rewrite (bind_ok _ _ s (add_gui (TreeStatus id folder_name SYNCING) s) tt)
      by reflexivity.
    apply bind_invariant.
    { unfold own_root, download_and_track. unfold_m. unfold_state.
      rewrite Hmk. unfold_state. eexists. rewrite dict_get_set_eq. split; reflexivity. }
    intros _ s1 Hs1. apply bind_invariant.
    { apply walk_invariant; [| |intros; apply track_yielded_own_root; assumption|exact Hs1].
      - intros folder s2 Hs2. eapply own_root_same; [exact Hs2|].
        unfold_m. destruct (files_list svc folder PAGE_SIZE (remote s2)); reflexivity.
      - intros y s2 Hs2. exact Hs2. }
    intros _ s2 Hs2. apply bind_invariant; [exact Hs2|].
    intros _ s3 Hs3. exact Hs3.
  - intros depth file_id name ftype shown answer s rec Hnew Hfile.
    unfold toggle_sync. unfold get_sync_status at 1.
    rewrite (bind_ok _ _ s s (sync_status s)) by reflexivity.
    rewrite Hnew. rewrite bool_decide_eq_false_2 by exact Hfile.
    rewrite (bind_ok _ _ s s (current_folder_id s)) by reflexivity.
    pose proof (download_and_track_store file_id name false name
                  (os_path_join SYNC_DIR name) (current_folder_id s) s) as Hst.
    cbv zeta in Hst. unfold bind.
    destruct (download_and_track svc lib file_id name false name
                (os_path_join SYNC_DIR name) (current_folder_id s) s)
      as [s1 [ok|e]]; proj_state.
    + assert (Hsame : sync_status
                ((if ok then
                    bind (post (ShowInfo "Sync" name))
                         (fun _ => post (TreeStatus file_id name SYNCED_FILE))
                  else ret tt) s1).1 = sync_status s1)
        by (destruct ok; reflexivity).
      unfold bind in Hsame. rewrite Hsame.
      destruct Hst as [Hst | (_ & rec' & Hroot & Hst)]; rewrite Hst.
      * apply dict_mem_false in Hnew. rewrite Hnew. discriminate.
      * rewrite dict_get_set_eq. intros [= <-]. exact Hroot.
    + destruct Hst as [Hst | (Hbad & _)]; [|discriminate].
      rewrite Hst. apply dict_mem_false in Hnew. rewrite Hnew. discriminate.
Qed.
End EngineFacts.

(** ** The in-memory Drive *)

Module MemDriveFacts.
Import MemDrive.

Lemma api_get_items file_id fields d : items (api_get file_id fields d).1 = items d.
Proof.
  unfold api_get, next_fault. destruct (script d) as [|[|n] rest]; simpl;
    try reflexivity; destruct (lookup_item _ file_id); reflexivity.
Qed.

Lemma api_media_items file_id d : items (api_media file_id d).1 = items d.
Proof.
  unfold api_media, next_fault. destruct (script d) as [|[|n] rest]; simpl;
    destruct (lookup_item _ file_id); reflexivity.
Qed.

Lemma api_list_page folder_id n d :
  items (api_list folder_id n d).1 = items d /\
  forall files, (api_list folder_id n d).2 = Ok files ->
    files = map meta_of (firstn n (children (items d) folder_id)).
Proof.
  unfold api_list, next_fault. destruct (script d) as [|[|k] rest]; simpl;
    (split; [reflexivity|]); intros files [= <-] || discriminate; reflexivity.
Qed.

(** A child on the first page of [folder_id] is on the first page of its
    parent. *)
Lemma listed_first_page its folder_id x :
  In x (firstn PAGE_SIZE (children its folder_id)) -> first_page its (meta_of x).
Proof.
  intros Hin. exists x. split; [reflexivity|].
  assert (Hpar : i_parent x = folder_id).
  { assert (Hin' : In x (children its folder_id)).
    { rewrite <- (firstn_skipn PAGE_SIZE). apply in_or_app. left. exact Hin. }
    apply List.filter_In in Hin' as [_ Hc].
    unfold is_child in Hc. apply andb_true_iff in Hc as [Hc _].
    apply bool_decide_eq_true_1 in Hc. exact Hc. }
  rewrite Hpar. exact Hin.
Qed.

Section Walk.
Variable lib : Library.
Variable s0 : State drive.
Variable root : string.

Lemma walked_start : walked s0 root s0.
Proof. unfold walked. repeat split; auto. Qed.

Lemma walked_gui e s : walked s0 root s -> walked s0 root (add_gui e s).
Proof. intros H. exact H. Qed.

Lemma download_and_track_walked file_id file_name folder rel full s :
  reached (items (remote s0)) root file_id ->
  walked s0 root s ->
  walked s0 root
    (download_and_track service lib file_id file_name folder rel full root s).1.
Proof.
  intros Hreach (Hits & Hy & Ht & Hk).
  pose proof (download_and_track_effects service lib file_id file_name folder
                rel full root s (fun r => items r = items (remote s0))) as Heff.
  pose proof (download_and_track_store service lib file_id file_name folder
                rel full root s) as Hst.
  cbv zeta in Heff, Hst.
  destruct Heff as (Hy' & Hits' & Ht').
  { intros fields r Hr. simpl. rewrite api_get_items. exact Hr. }
  { intros r Hr. simpl. rewrite api_media_items. exact Hr. }
  unfold walked. split; [apply Hits', Hits|]. split; [|split].
  - rewrite Hy'. exact Hy.
  - intros q Hq. destruct (Ht' q Hq) as [Hold|[->| ->]]; [apply Ht, Hold| |];
      right; exact Hreach.
  - intros k Hin. destruct Hst as [Hst | (_ & rec & _ & Hst)]; rewrite Hst in Hin.
    + apply Hk, Hin.
    + apply dict_keys_set in Hin as [->|Hin]; [right; exact Hreach | apply Hk, Hin].
Qed.

Lemma track_yielded_walked f rel full s :
  first_page (items (remote s0)) f ->
  walked s0 root s ->
  walked s0 root (track_yielded service lib root f rel full s).1.
Proof.
  intros Hf Hs.
  pose proof (track_yielded_state service lib root f rel full s) as Hty.
  cbv zeta in Hty. destruct Hty as (Hr & _ & Hss & _ & Ht & Hy).
  pose proof (download_and_track_walked (m_id f) (m_name f) (meta_is_folder f)
                rel full s) as Hdat.
  destruct Hdat as (Hits & Hy1 & Ht1 & Hk1); [|exact Hs|].
  { right. exists f. split; [exact Hf | reflexivity]. }
  unfold walked. rewrite Hr, Hss, Ht, Hy. repeat split; assumption.
Qed.

Lemma walk_walked depth drive_id prefix s :
  reached (items (remote s0)) root drive_id ->
  walked s0 root s ->
  walked s0 root
    (_recursively_get_folder_content service depth drive_id prefix root
       (track_yielded service lib root) s).1.
Proof.
  revert drive_id prefix s. induction depth as [|depth IH];
    intros drive_id prefix s Hreach Hs; simpl; [exact Hs|].
  unfold bind at 1.
  pose proof (api_list_page drive_id PAGE_SIZE (remote s)) as [Hitems Hfiles].
  unfold try_except, bind, list_files_in_folder, call, ret. simpl.
  destruct (api_list drive_id PAGE_SIZE (remote s)) as [d' [files|e]] eqn:Hl;
    simpl in Hitems, Hfiles.
  2:{ destruct Hs as (Hits & Hy & Ht & Hk). unfold walked. unfold_state.
      rewrite Hitems. repeat split; auto.
      intros q [Hq|[<-|[]]]%in_app_or; [apply Ht, Hq|]. right. split; auto. }
  specialize (Hfiles files eq_refl).
  assert (Hs1 : walked s0 root
            (set_remote d' (add_trace (ReqList drive_id PAGE_SIZE) s))).
  { destruct Hs as (Hits & Hy & Ht & Hk). unfold walked. unfold_state.
    rewrite Hitems. repeat split; auto.
    intros q [Hq|[<-|[]]]%in_app_or; [apply Ht, Hq|]. right. split; auto. }
  assert (Hpage : forall f, In f files -> first_page (items (remote s0)) f).
  { intros f Hf. rewrite Hfiles in Hf. apply in_map_iff in Hf as (x & <- & Hx).
    destruct Hs as (Hits & _). rewrite Hits in Hx.
    apply (listed_first_page _ drive_id), Hx. }
  apply for_each_invariant; [|exact Hs1].
  intros f s2 Hf Hs2. specialize (Hpage f Hf).
  set (rel := os_path_join prefix (m_name f)).
  set (full := os_path_join SYNC_DIR rel).
  assert (Hs2' : walked s0 root (add_yield (f, rel, full) s2)).
  { destruct Hs2 as (Hits & Hy & Ht & Hk). unfold walked. unfold_state.
    repeat split; auto. intros y [Hyin|[<-|[]]]%in_app_or; [apply Hy, Hyin|].
    right. exact Hpage. }
  pose proof (track_yielded_walked f rel full _ Hpage Hs2') as Hs3.
  destruct (track_yielded service lib root f rel full (add_yield (f, rel, full) s2))
    as [s3 [[]|e]]; proj_state; [|exact Hs3].
  destruct (meta_is_folder f); [|exact Hs3].
  apply IH; [|exact Hs3]. right. exists f. split; [exact Hpage | reflexivity].
Qed.
End Walk.

(** C5.  Tracking the folder [drive_folder_id] on a Drive with items
    [its], to any depth, with whatever requests fail: the items stay as
    they are; every item the walk yields is one of the first [PAGE_SIZE]
    (100) children of its parent in listing order; every request sent is
    the first page, of size 100, of the folder itself or of such an item,
    or the metadata or content of such an item; and every dictionary key
    added is the folder or such an item.  A child beyond the first 100 of
    its folder is thus not yielded, and nothing is requested or recorded
    for it. *)
Theorem walk_stays_on_first_pages
    (lib : Library) (depth : nat) (drive_folder_id folder_name : string)
    (s : State drive) :
  let its := items (remote s) in
  let s' := (_start_recursive_sync service lib depth drive_folder_id folder_name s).1 in
  items (remote s') = its /\
  (forall y, In y (yields s') -> In y (yields s) \/ first_page its y.1.1) /\
  (forall q, In q (trace s') ->
     In q (trace s) \/ request_reached its drive_folder_id q) /\
  (forall k, In k (dict_keys (sync_status s')) ->
     In k (dict_keys (sync_status s)) \/ reached its drive_folder_id k).
Proof.
  cbv zeta. change (walked s drive_folder_id
    (_start_recursive_sync service lib depth drive_folder_id folder_name s).1).
  unfold _start_recursive_sync.
  apply bind_invariant; [apply walked_gui, walked_start|].
  intros _ s1 Hs1. apply bind_invariant.
  { apply download_and_track_walked; [left; reflexivity | exact Hs1]. }
  intros _ s2 Hs2. apply bind_invariant.
  { apply walk_walked; [left; reflexivity | exact Hs2]. }
  intros _ s3 Hs3. apply bind_invariant; [apply walked_gui, Hs3|].
  intros _ s4 Hs4. apply walked_gui, Hs4.
Qed.

(** *** Scenarios *)

(** C1 (the code departs from the claim).  A pull pass over one tracked
    file whose remote copy is newer and whose local copy is untouched,
    with the content download failing after two bytes: [download_file]
    returns nothing, and yet the pass rewrites the record (hash of the
    truncated file, the new remote time, the time of the pass), saves it,
    leaves the two bytes as the local file and reports STAZENO. *)
Theorem pull_ignores_failed_download :
  let s := report_state T1 [Pass; Fail 2] "old" in
  let s1 := (service_get service "r" "modifiedTime, name" s).1 in
  let out := check_and_sync_remote_changes service library s in
  (download_file service "r" "report.csv" report_path s1).2 = Ok None /\
  out.2 = Ok tt /\
  sync_status s = [("r", mkRecord "report.csv" false report_path 900 T0
                           (Some "old") "root" "report.csv")] /\
  sync_status out.1 = [("r", mkRecord "report.csv" false report_path 1000 T1
                               (Some "re") "root" "report.csv")] /\
  status_file out.1 = sync_status out.1 /\
  fs s !! report_path = Some (File (bytes "old")) /\
  fs out.1 !! report_path = Some (File (bytes "re")) /\
  gui out.1 = [TreeStatus "r" "report.csv" STAZENO].
Proof. vm_compute. repeat split; reflexivity. Qed.

(** C7 (the code departs from the claim).  Resolving a conflict in favour
    of the remote copy while the content download fails after two bytes:
    [download_file] returns nothing, and [_resolve_conflict_download]
    still rewrites and saves the record and shows the dialog and the
    status of a successful resolution, not the failure ones. *)
Theorem resolve_download_reports_success_on_failure :
  let s := report_state T1 [Pass; Fail 2] "edited" in
  let s1 := (service_get service "r" "modifiedTime, name" s).1 in
  let out := _resolve_conflict_download service library "r" "report.csv" report_path s in
  (download_file service "r" "report.csv" report_path s1).2 = Ok None /\
  gui out.1 = [ShowInfo "Konflikt vyresen" "report.csv";
               TreeStatus "r" "report.csv" STAZENO] /\
  sync_status out.1 = [("r", mkRecord "report.csv" false report_path 1000 T1
                               (Some "re") "root" "report.csv")] /\
  status_file out.1 = sync_status out.1 /\
  fs out.1 !! report_path = Some (File (bytes "re")).
Proof. vm_compute. repeat split; reflexivity. Qed.

(** When the metadata request fails instead, the failure is shown and the
    record stays. *)
Example resolve_download_metadata_failure :
  let s := report_state T1 [Fail 0] "edited" in
  let out := _resolve_conflict_download service library "r" "report.csv" report_path s in
  gui out.1 = [ShowError "Chyba stahovani" "report.csv";
               TreeStatus "r" "report.csv" STAZENI_SELHALO] /\
  sync_status out.1 = sync_status s /\ fs out.1 = fs s.
Proof. vm_compute. repeat split; reflexivity. Qed.

(** With no failure the remote copy replaces the local one. *)
Example resolve_download_success :
  let s := report_state T1 [] "edited" in
  let out := _resolve_conflict_download service library "r" "report.csv" report_path s in
  gui out.1 = [ShowInfo "Konflikt vyresen" "report.csv";
               TreeStatus "r" "report.csv" STAZENO] /\
  sync_status out.1 = [("r", mkRecord "report.csv" false report_path 1000 T1
                               (Some "remote") "root" "report.csv")] /\
  fs out.1 !! report_path = Some (File (bytes "remote")).
Proof. vm_compute. repeat split; reflexivity. Qed.

(** C4, as stated, fails: tracking [Docs] makes a record for the
    subfolder [Sub] too, four records in all. *)
Lemma docs_records_not_three :
  ~ (List.length (sync_status docs_tracked) = 3%nat) /\
  dict_mem "sub" (sync_status docs_tracked) = true.
Proof. vm_compute. split; [discriminate | reflexivity]. Qed.

(** C4 (amended).  Tracking [Docs], which holds [a.txt] and the subfolder
    [Sub] with [b.txt], to any depth of at least two and with any hash
    and time functions, ends normally with exactly four records, for
    [Docs], [a.txt], [Sub] and [b.txt], with the relative paths [Docs],
    [Docs/a.txt], [Docs/Sub] and [Docs/Sub/b.txt], all with the id of
    [Docs] as root. *)
Theorem docs_scenario (lib : Library) (depth : nat) :
  let out := _start_recursive_sync service lib (S (S depth)) "docs" "Docs"
               (start docs_drive) in
  out.2 = Ok tt /\
  map (fun kv => (kv.1, name kv.2, drive_relative_path kv.2, drive_root_id kv.2))
      (sync_status out.1)
  = [ ("docs", "Docs", "Docs", "docs");
      ("a", "a.txt", "Docs/a.txt", "docs");
      ("sub", "Sub", "Docs/Sub", "docs");
      ("b", "b.txt", "Docs/Sub/b.txt", "docs") ] /\
  status_file out.1 = sync_status out.1.
Proof. vm_compute. repeat split; reflexivity. Qed.

(** Of 101 children the walk yields and tracks the first 100. *)
Example big_folder_first_page :
  List.length (children (items big_drive) "big") = 101%nat /\
  List.length (yields big_tracked) = 100%nat /\
  dict_mem "f99" (sync_status big_tracked) = true /\
  dict_mem "f100" (sync_status big_tracked) = false /\
  List.length (sync_status big_tracked) = 101%nat.
Proof. vm_compute. repeat split; reflexivity. Qed.

(** C6, as stated, fails: the record of a file tracked on its own names
    the browsed folder as root, not the file. *)
Lemma single_file_root_is_browsed_folder :
  exists rec, dict_get "r" (sync_status file_tracked) = Some rec /\
              drive_root_id rec = "root" /\ drive_root_id rec <> "r".
Proof.
  eexists. split; [vm_compute; reflexivity|]. split; [reflexivity | discriminate].
Qed.

(** C10, as stated, fails: [root] has no record, and untracking it
    removes the record of the file tracked under it. *)
Lemma unsync_untracked_root_drops_records :
  let s := report_state T0 [] "old" in
  dict_mem "root" (sync_status s) = false /\
  sync_status s = [("r", report_record)] /\
  sync_status (_recursively_unsync "root" s).1 = [] /\
  sync_status (_recursively_unsync "root" s).1 <> sync_status s.
Proof. vm_compute. repeat split; try reflexivity. discriminate. Qed.

(** *** The general theorems at work *)


(** The three cases of the push pass on [report.csv]. *)
Lemma push_pass_cases_witness :
  let pass local stamp :=
    (check_and_sync_local_changes service library (report_state stamp [] local)).1 in
  dict_get "r" (sync_status (pass "old" T0)) = Some report_record /\
  dict_get "r" (sync_status (pass "edited" T1)) = Some report_record /\
  dict_get "r" (sync_status (pass "edited" T0))
    = Some (pushed report_record 1000 (Some "edited") T2).
Proof.
  cbv zeta. split; [|split].
  - destruct (push_pass_cases service library (report_state T0 [] "old") [] []
                "r" report_record (report_state T0 [] "old") (bytes "old"))
      as (Hsame & _).
    + reflexivity.
    + apply NoDup_singleton.
    + reflexivity.
    + reflexivity.
    + vm_compute. reflexivity.
    + apply Hsame. reflexivity.
  - destruct (push_pass_cases service library (report_state T1 [] "edited") [] []
                "r" report_record (report_state T1 [] "edited") (bytes "edited"))
      as (_ & Hconflict & _).
    + reflexivity.
    + apply NoDup_singleton.
    + reflexivity.
    + reflexivity.
    + vm_compute. reflexivity.
    + apply (Hconflict (report_drive T1 []) (report_meta T1)
               (mkDatetime 86400 true) (mkDatetime 0 true)).
      * vm_compute. discriminate.
      * reflexivity.
      * reflexivity.
      * reflexivity.
      * reflexivity.
  - destruct (push_pass_cases service library (report_state T0 [] "edited") [] []
                "r" report_record (report_state T0 [] "edited") (bytes "edited"))
      as (_ & _ & Hupload).
    + reflexivity.
    + apply NoDup_singleton.
    + reflexivity.
    + reflexivity.
    + vm_compute. reflexivity.
    + apply (Hupload (report_drive T0 []) (report_meta T0)
               (mkDatetime 0 true) (mkDatetime 0 true)
               (mkDrive [mkItem "r" "report.csv" "text/plain" T2 "root"
                           (bytes "edited") false] [] T2)
               "r"
               (mkDrive [mkItem "r" "report.csv" "text/plain" T2 "root"
                           (bytes "edited") false] [] T2)
               (report_meta T2)).
      * vm_compute. discriminate.
      * reflexivity.
      * reflexivity.
      * reflexivity.
      * reflexivity.
      * reflexivity.
      * reflexivity.
Defined.


(** The root of a tracked folder, and the root of a file tracked on its own. *)
Lemma tracking_roots_witness :
  own_root "docs" docs_tracked /\
  (forall rec, dict_get "r" (sync_status file_tracked) = Some rec ->
               drive_root_id rec = "root").
Proof.
  destruct (tracking_roots service library) as [Hfolder Hfile]. split.
  - apply (Hfolder 10%nat "docs" "Docs" (start docs_drive)
             (<["synced_files/Docs" := Dir]> (<[SYNC_DIR := Dir]> ∅))).
    vm_compute. reflexivity.
  - intros rec Hrec.
    apply (Hfile 10%nat "r" "report.csv" "csv" "root" true
             (start (report_drive T0 [])) rec).
    + reflexivity.
    + discriminate.
    + exact Hrec.
Defined.

(** Untracking the root of a tracked folder that has one subfolder and
    two files: the four records go, and the local subtree with them. *)
Lemma unsync_removes_subtree_witness :
  let out := _recursively_unsync "docs" four_tracked in
  dict_keys (sync_status four_tracked) = ["docs"; "a"; "c"; "sub"] /\
  out.2 = Ok tt /\
  sync_status out.1 = [] /\
  status_file out.1 = [] /\
  fs out.1 = <[SYNC_DIR := Dir]> ∅.
Proof.
  cbv zeta.
  destruct (unsync_removes_subtree "docs" four_tracked)
    as (Hok & Hstore & _ & Hsaved & Hfs & _).
  - apply (bool_decide_unpack _). vm_compute. exact I.
  - apply (bool_decide_unpack _). vm_compute. exact I.
  - intros status Hstatus. vm_compute in Hstatus. injection Hstatus as <-.
    vm_compute. reflexivity.
  - intros status Hstatus. vm_compute in Hstatus. injection Hstatus as <-.
    vm_compute. reflexivity.
  - split; [vm_compute; reflexivity|]. split; [exact Hok|].
    assert (Hempty : sync_status (_recursively_unsync "docs" four_tracked).1 = []).
    { rewrite Hstore. vm_compute. reflexivity. }
    split; [exact Hempty|]. split; [rewrite Hsaved; exact Hempty|].
    rewrite Hfs. vm_compute. reflexivity.
Defined.

(** Untracking twice, and untracking an id that nothing refers to. *)
Lemma unsync_twice_witness :
  let s := report_state T0 [] "old" in
  _recursively_unsync "r" (_recursively_unsync "r" s).1 = _recursively_unsync "r" s /\
  _recursively_unsync "other" s = (set_status_file (sync_status s) s, Ok tt).
Proof.
  cbv zeta. split.
  - apply (proj1 (unsync_twice "r" (report_state T0 [] "old"))).
  - apply (proj2 (unsync_twice "other" (report_state T0 [] "old"))).
    + reflexivity.
    + intros k rec [[= <- <-]|[]]. discriminate.
Defined.
End MemDriveFacts.

(** * Further properties of the engine *)

Section PassFacts.
Context {R : Type}.
Variable svc : Service R.
Variable lib : Library.

(** ** What an iteration is made of *)

(** Every property of the state kept by the steps that change the state in
    an iteration of the pull pass is kept by the iteration. *)
Lemma pull_item_keeps (P : State R -> Prop) (file_id : string) (status : SyncRecord) :
  (forall fields s, P s -> P (service_get svc file_id fields s).1) ->
  (forall nm path s, P s -> P (download_file svc file_id nm path s).1) ->
  (forall f s, keeps_identity f -> P s -> P (update_record file_id f s).1) ->
  (forall e s, P s -> P (add_gui e s)) ->
  forall s, P s -> P (pull_item svc lib file_id status s).1.
Proof.
  intros Hget Hdown Hupd Hgui s Hs. unfold pull_item.
  destruct (is_folder status); [exact Hs|].
  apply try_invariant; [|intros; assumption].
  apply bind_invariant; [apply Hget, Hs|]. intros md s1 Hs1.
  apply bind_invariant; [exact Hs1|]. intros remote_time s2 Hs2.
  apply bind_invariant; [exact Hs2|]. intros last_time s3 Hs3.
  apply bind_invariant; [exact Hs3|]. intros [|] s4 Hs4; [|exact Hs4].
  apply bind_invariant; [exact Hs4|]. intros current s5 Hs5.
  destruct (bool_decide (current = local_hash_at_sync status));
    [|apply Hgui, Hs5].
  apply bind_invariant; [apply Hdown, Hs5|]. intros _ s6 Hs6.
  apply bind_invariant; [exact Hs6|]. intros new_hash s7 Hs7.
  apply bind_invariant; [exact Hs7|]. intros now s8 Hs8.
  apply bind_invariant.
  { apply Hupd; [|exact Hs8]. intros rec. repeat split; reflexivity. }
  intros _ s9 Hs9. apply Hgui, Hs9.
Qed.

(** The same for an iteration of the push pass. *)
Lemma push_item_keeps (P : State R -> Prop) (file_id : string) (status : SyncRecord) :
  (forall fields s, P s -> P (service_get svc file_id fields s).1) ->
  (forall path s, P s -> P (update_file_content svc file_id path s).1) ->
  (forall f s, keeps_identity f -> P s -> P (update_record file_id f s).1) ->
  (forall e s, P s -> P (add_gui e s)) ->
  forall s, P s -> P (push_item svc lib file_id status s).1.
Proof.
  intros Hget Hup Hupd Hgui s Hs. unfold push_item.
  destruct (is_folder status); [exact Hs|].
  apply bind_invariant; [exact Hs|]. intros [|] s1 Hs1; cbn [negb]; [|exact Hs1].
  apply bind_invariant; [exact Hs1|]. intros current s2 Hs2.
  destruct (negb (bool_decide (current = local_hash_at_sync status))); [|exact Hs2].
  apply try_invariant; [|intros e s3 Hs3; apply Hgui, Hs3].
  apply bind_invariant; [apply Hget, Hs2|]. intros md s3 Hs3.
  apply bind_invariant; [exact Hs3|]. intros current_time s4 Hs4.
  apply bind_invariant; [exact Hs4|]. intros last_time s5 Hs5.
  apply bind_invariant; [exact Hs5|]. intros [|] s6 Hs6; [apply Hgui, Hs6|].
  apply bind_invariant; [apply Hup, Hs6|]. intros _ s7 Hs7.
  apply bind_invariant; [apply Hget, Hs7|]. intros after s8 Hs8.
  apply bind_invariant; [exact Hs8|]. intros now s9 Hs9.
  apply bind_invariant.
  { apply Hupd; [|exact Hs9]. intros rec. repeat split; reflexivity. }
  intros _ s10 Hs10. apply bind_invariant.
  { apply Hupd; [|exact Hs10]. intros rec. repeat split; reflexivity. }
  intros _ s11 Hs11. apply bind_invariant.
  { apply Hupd; [|exact Hs11]. intros rec. repeat split; reflexivity. }
  intros _ s12 Hs12. apply Hgui, Hs12.
Qed.

Lemma pull_pass_keeps (P : State R -> Prop) :
  (forall file_id fields s, P s -> P (service_get svc file_id fields s).1) ->
  (forall file_id nm path s, P s -> P (download_file svc file_id nm path s).1) ->
  (forall file_id f s, keeps_identity f -> P s -> P (update_record file_id f s).1) ->
  (forall e s, P s -> P (add_gui e s)) ->
  (forall d s, P s -> P (set_status_file d s)) ->
  forall s, P s -> P (check_and_sync_remote_changes svc lib s).1.
Proof.
  intros Hget Hdown Hupd Hgui Hsave s Hs. unfold check_and_sync_remote_changes.
  apply bind_invariant; [exact Hs|]. intros items s1 Hs1.
  apply bind_invariant.
  { apply for_each_invariant; [|exact Hs1]. intros [k st] s2 _ Hs2.
    apply pull_item_keeps; auto. }
  intros _ s2 Hs2. apply bind_invariant; [exact Hs2|]. intros d s3 Hs3.
  apply Hsave, Hs3.
Qed.

Lemma push_pass_keeps (P : State R -> Prop) :
  (forall file_id fields s, P s -> P (service_get svc file_id fields s).1) ->
  (forall file_id path s, P s -> P (update_file_content svc file_id path s).1) ->
  (forall file_id f s, keeps_identity f -> P s -> P (update_record file_id f s).1) ->
  (forall e s, P s -> P (add_gui e s)) ->
  (forall d s, P s -> P (set_status_file d s)) ->
  forall s, P s -> P (check_and_sync_local_changes svc lib s).1.
Proof.
  intros Hget Hup Hupd Hgui Hsave s Hs. unfold check_and_sync_local_changes.
  apply bind_invariant; [exact Hs|]. intros items s1 Hs1.
  apply bind_invariant.
  { apply for_each_invariant; [|exact Hs1]. intros [k st] s2 _ Hs2.
    apply push_item_keeps; auto. }
  intros _ s2 Hs2. apply bind_invariant; [exact Hs2|]. intros d s3 Hs3.
  apply Hsave, Hs3.
Qed.

Lemma push_items_keep (P : State R -> Prop) (items : dict SyncRecord) :
  (forall file_id fields s, P s -> P (service_get svc file_id fields s).1) ->
  (forall file_id path s, P s -> P (update_file_content svc file_id path s).1) ->
  (forall file_id f s, keeps_identity f -> P s -> P (update_record file_id f s).1) ->
  (forall e s, P s -> P (add_gui e s)) ->
  forall s, P s -> P (for_each items (fun kv => push_item svc lib kv.1 kv.2) s).1.
Proof.
  intros Hget Hup Hupd Hgui s Hs. apply for_each_invariant; [|exact Hs].
  intros [k st] s2 _ Hs2. apply push_item_keeps; auto.
Qed.

(** ** The steps, one property at a time *)

Lemma call_trace {A} (q : request) (f : R -> R * res A) (s : State R) :
  trace (call q f s).1 = (trace s ++ [q])%list /\ fs (call q f s).1 = fs s /\
  status_file (call q f s).1 = status_file s /\ gui (call q f s).1 = gui s.
Proof. unfold call. destruct (f (remote s)). repeat split; reflexivity. Qed.

Lemma update_file_content_frame (file_id path : string) (s : State R) :
  let out := update_file_content svc file_id path s in
  fs out.1 = fs s /\ status_file out.1 = status_file s /\ gui out.1 = gui s /\
  (trace out.1 = trace s \/
   exists content, trace out.1 = (trace s ++ [ReqUpdate file_id content])%list).
Proof.
  unfold update_file_content, bind. destruct (fs_read path (fs s)) as [content|e].
  - unfold service_update.
    destruct (call_trace (ReqUpdate file_id content)
                (files_update svc file_id content) s) as (Ht & Hf & Hsf & Hg).
    repeat split; try assumption. right. exists content. exact Ht.
  - repeat split; try reflexivity. left. reflexivity.
Qed.

Lemma update_record_frame (file_id : string) f (s : State R) :
  let out := update_record file_id f s in
  fs out.1 = fs s /\ status_file out.1 = status_file s /\ gui out.1 = gui s /\
  trace out.1 = trace s /\ remote out.1 = remote s.
Proof.
  unfold update_record. destruct (dict_get file_id (sync_status s));
    repeat split; reflexivity.
Qed.

Lemma download_file_trace (file_id file_name path : string) (s : State R) :
  let out := download_file svc file_id file_name path s in
  trace out.1 = trace s \/ trace out.1 = (trace s ++ [ReqMedia file_id])%list.
Proof.
  unfold download_file, next_chunks. unfold_m.
  destruct (fs_makedirs (os_path_dirname path) (fs s)) as [f1|e1]; unfold_state;
    [|left; reflexivity].
  destruct (fs_open_wb path f1) as [f2|e2]; unfold_state; [|left; reflexivity].
  destruct (media_download svc file_id (remote s)) as [r' [written [[]|e3]]];
    unfold_state; right; reflexivity.
Qed.

Lemma asked_since_start (C : request -> bool) (s : State R) : asked_since C s s.
Proof. exists []. split; [symmetry; apply app_nil_r | reflexivity]. Qed.

Lemma asked_since_same (C : request -> bool) (s0 s s' : State R) :
  asked_since C s0 s -> trace s' = trace s -> asked_since C s0 s'.
Proof. intros (extra & Ht & HC) Hs'. exists extra. rewrite Hs'. split; assumption. Qed.

Lemma asked_since_more (C : request -> bool) (s0 s s' : State R) q :
  asked_since C s0 s -> trace s' = (trace s ++ [q])%list -> C q = true ->
  asked_since C s0 s'.
Proof.
  intros (extra & Ht & HC) Hs' Hq. exists (extra ++ [q])%list.
  rewrite Hs', Ht, <- app_assoc. split; [reflexivity|].
  rewrite forallb_app, HC. simpl. rewrite Hq. reflexivity.
Qed.

Lemma identities_set (k : string) (rec v : SyncRecord) (d : dict SyncRecord) :
  dict_get k d = Some rec -> identity (k, v) = identity (k, rec) ->
  map identity (dict_set k v d) = map identity d.
Proof.
  induction d as [|[k0 v0] d IH]; simpl; [discriminate|].
  case_bool_decide as Hk; simpl.
  - intros [= ->] Hid. subst k0. rewrite Hid. reflexivity.
  - intros Hget Hid. rewrite IH by assumption. reflexivity.
Qed.

Lemma identities_update (file_id : string) f (s : State R) :
  keeps_identity f ->
  map identity (sync_status (update_record file_id f s).1)
  = map identity (sync_status s).
Proof.
  intros Hf. unfold update_record.
  destruct (dict_get file_id (sync_status s)) as [rec|] eqn:Hget; [|reflexivity].
  unfold_state. apply (identities_set file_id rec); [exact Hget|].
  unfold identity. simpl. destruct (Hf rec) as (-> & -> & ->). reflexivity.
Qed.

(** ** The pull pass as a whole *)

(** X1.  [check_and_sync_remote_changes] never raises, whatever the Drive
    service and the local files do: it always runs through all records and
    ends by saving the dictionary.  The requests it sends are metadata
    requests and downloads only: it never uploads and never lists. *)
Theorem pull_pass_completes (s : State R) :
  let out := check_and_sync_remote_changes svc lib s in
  out.2 = Ok tt /\
  status_file out.1 = sync_status out.1 /\
  asked_since (fun q => is_get q || is_media q) s out.1.
Proof.
  cbv zeta. destruct (pull_pass_returns svc lib s) as [Hok Hsaved].
  split; [exact Hok|]. split; [exact Hsaved|].
  apply (pull_pass_keeps (asked_since (fun q => is_get q || is_media q) s)).
  - intros file_id fields s1 Hs1.
    apply (asked_since_more _ s s1 _ (ReqGet file_id fields) Hs1);
      [apply call_trace | reflexivity].
  - intros file_id nm path s1 Hs1.
    destruct (download_file_trace file_id nm path s1) as [Ht|Ht].
    + eapply asked_since_same; [exact Hs1 | exact Ht].
    + apply (asked_since_more _ s s1 _ (ReqMedia file_id) Hs1 Ht). reflexivity.
  - intros file_id f s1 _ Hs1. eapply asked_since_same; [exact Hs1|].
    apply update_record_frame.
  - intros e s1 Hs1. exact Hs1.
  - intros d s1 Hs1. exact Hs1.
  - apply asked_since_start.
Qed.

(** ** The push pass as a whole *)

(** X2.  [check_and_sync_local_changes] never changes a local file, and the
    requests it sends are metadata requests and uploads only (no download,
    no listing).  It saves the dictionary when it ends normally; when it
    raises, the saved copy is what it was. *)
Theorem push_pass_spares_local_files (s : State R) :
  let out := check_and_sync_local_changes svc lib s in
  fs out.1 = fs s /\
  asked_since (fun q => is_get q || is_update q) s out.1 /\
  (out.2 = Ok tt -> status_file out.1 = sync_status out.1) /\
  (forall e, out.2 = Raise e -> status_file out.1 = status_file s).
Proof.
  cbv zeta. split; [|split].
  - apply (push_pass_keeps (fun s' => fs s' = fs s)); try reflexivity.
    + intros file_id fields s1 Hs1. rewrite <- Hs1. apply call_trace.
    + intros file_id path s1 Hs1. rewrite <- Hs1. apply update_file_content_frame.
    + intros file_id f s1 _ Hs1. rewrite <- Hs1. apply update_record_frame.
    + intros e s1 Hs1. exact Hs1.
    + intros d s1 Hs1. exact Hs1.
  - apply (push_pass_keeps (asked_since (fun q => is_get q || is_update q) s)).
    + intros file_id fields s1 Hs1.
      apply (asked_since_more _ s s1 _ (ReqGet file_id fields) Hs1);
        [apply call_trace | reflexivity].
    + intros file_id path s1 Hs1.
      destruct (update_file_content_frame file_id path s1)
        as (_ & _ & _ & [Ht|[content Ht]]).
      * eapply asked_since_same; [exact Hs1 | exact Ht].
      * apply (asked_since_more _ s s1 _ (ReqUpdate file_id content) Hs1 Ht).
        reflexivity.
    + intros file_id f s1 _ Hs1. eapply asked_since_same; [exact Hs1|].
      apply update_record_frame.
    + intros e s1 Hs1. exact Hs1.
    + intros d s1 Hs1. exact Hs1.
    + apply asked_since_start.
  - pose proof (push_items_keep (fun s' => status_file s' = status_file s)
                  (sync_status s)) as Hkeep.
    unfold check_and_sync_local_changes. unfold_m.
    destruct (for_each (sync_status s) (fun kv => push_item svc lib kv.1 kv.2) s)
      as [s1 [[]|e]] eqn:Hloop; unfold_state.
    + split; [reflexivity | discriminate].
    + split; [discriminate|]. intros e' _.
      specialize (Hkeep) with (s := s). rewrite Hloop in Hkeep. apply Hkeep;
        try reflexivity.
      * intros file_id fields s2 Hs2. rewrite <- Hs2. apply call_trace.
      * intros file_id path s2 Hs2. rewrite <- Hs2. apply update_file_content_frame.
      * intros file_id f s2 _ Hs2. rewrite <- Hs2. apply update_record_frame.
      * intros e0 s2 Hs2. exact Hs2.
Qed.

(** ** The monitor round *)

(** X3.  A round of the monitor (push pass, then pull pass) keeps the keys
    of the dictionary, in their order, and for every record whether it is a
    folder, its root and its relative path: reconciliation never adds,
    drops or re-roots a record, whatever fails on the way. *)
Theorem monitor_round_keeps_identities (s : State R) :
  map identity (sync_status (sync_monitor_round svc lib s).1)
  = map identity (sync_status s).
Proof.
  set (P := fun s' : State R =>
              map identity (sync_status s') = map identity (sync_status s)).
  change (P (sync_monitor_round svc lib s).1).
  assert (Hget : forall file_id fields s1,
            P s1 -> P (service_get svc file_id fields s1).1).
  { intros file_id fields s1 Hs1. unfold P, service_get. rewrite call_store.
    exact Hs1. }
  assert (Hupd : forall file_id f s1, keeps_identity f ->
            P s1 -> P (update_record file_id f s1).1).
  { intros file_id f s1 Hf Hs1. unfold P. rewrite identities_update by exact Hf.
    exact Hs1. }
  unfold sync_monitor_round. apply bind_invariant.
  - apply push_pass_keeps.
    + exact Hget.
    + intros file_id path s1 Hs1. unfold P. rewrite update_file_content_store.
      exact Hs1.
    + exact Hupd.
    + intros e s1 Hs1. exact Hs1.
    + intros d s1 Hs1. exact Hs1.
    + reflexivity.
  - intros _ s1 Hs1. apply pull_pass_keeps.
    + exact Hget.
    + intros file_id nm path s2 Hs2. unfold P.
      rewrite (proj1 (download_file_frame svc file_id nm path s2)). exact Hs2.
    + exact Hupd.
    + intros e s2 Hs2. exact Hs2.
    + intros d s2 Hs2. exact Hs2.
    + exact Hs1.
Qed.

(** X4.  A file record whose local path is a directory stops the monitor:
    the hash is computed outside the [try] of the push pass, so when the
    loop comes to that record the pass raises IsADirectoryError, the round
    ends there without the pull pass, and nothing is saved. *)
Theorem monitor_round_stops_on_directory
    (s reach : State R) (pre post : dict SyncRecord)
    (file_id : string) (status : SyncRecord) :
  sync_status s = (pre ++ (file_id, status) :: post)%list ->
  for_each pre (fun kv => push_item svc lib kv.1 kv.2) s = (reach, Ok tt) ->
  is_folder status = false ->
  fs s !! local_path status = Some Dir ->
  sync_monitor_round svc lib s = (reach, Raise IsADirectoryError) /\
  status_file reach = status_file s.
Proof.
  intros Hstore Hpre Hfile Hdir.
  assert (Hfs : fs reach = fs s).
  { pose proof (push_items_keep (fun s' => fs s' = fs s) pre) as H.
    specialize (H) with (s := s). rewrite Hpre in H. apply H; try reflexivity.
    - intros k fields s1 Hs1. rewrite <- Hs1. apply call_trace.
    - intros k path s1 Hs1. rewrite <- Hs1. apply update_file_content_frame.
    - intros k f s1 _ Hs1. rewrite <- Hs1. apply update_record_frame.
    - intros e s1 Hs1. exact Hs1. }
  assert (Hsf : status_file reach = status_file s).
  { pose proof (push_items_keep (fun s' => status_file s' = status_file s) pre)
      as H.
    specialize (H) with (s := s). rewrite Hpre in H. apply H; try reflexivity.
    - intros k fields s1 Hs1. rewrite <- Hs1. apply call_trace.
    - intros k path s1 Hs1. rewrite <- Hs1. apply update_file_content_frame.
    - intros k f s1 _ Hs1. rewrite <- Hs1. apply update_record_frame.
    - intros e s1 Hs1. exact Hs1. }
  split; [|exact Hsf].
  assert (Hitem : push_item svc lib file_id status reach
                  = (reach, Raise IsADirectoryError)).
  { unfold push_item. rewrite Hfile. unfold_m. unfold fs_exists, file_hash, fs_read.
    rewrite Hfs, Hdir. rewrite bool_decide_eq_true_2 by eauto. proj_state.
    rewrite Hfs, Hdir. reflexivity. }
  unfold sync_monitor_round, check_and_sync_local_changes. unfold_m.
  rewrite Hstore at 1. rewrite for_each_app. unfold bind at 1. rewrite Hpre.
  simpl. unfold bind at 1. cbn [fst snd]. rewrite Hitem. reflexivity.
Qed.

(** ** One iteration of the pull pass *)

(** X5.  An iteration of the pull pass never overwrites a local file that
    was edited: unless the hash of the local file is the recorded
    [local_hash_at_sync], the iteration leaves all local files and the
    dictionary as they are, whatever Drive answers, and sends nothing but
    its metadata request. *)
Theorem pull_spares_local_edits
    (file_id : string) (status : SyncRecord) (s : State R) :
  file_hash lib (fs s) (local_path status) <> Ok (local_hash_at_sync status) ->
  let out := pull_item svc lib file_id status s in
  fs out.1 = fs s /\
  sync_status out.1 = sync_status s /\
  asked_since is_get s out.1.
Proof.
  intros Hedit. cbv zeta. unfold pull_item.
  destruct (is_folder status).
  { repeat split. apply asked_since_start. }
  assert (Hask : forall s' : State R,
            trace s' = (trace s ++ [ReqGet file_id "modifiedTime, name"])%list ->
            asked_since is_get s s').
  { intros s' Ht. exists [ReqGet file_id "modifiedTime, name"]. split; [exact Ht|].
    reflexivity. }
  unfold_m. destruct (files_get svc file_id "modifiedTime, name" (remote s))
    as [r1 [md|e]]; unfold_state; [|repeat split; apply Hask; reflexivity].
  destruct (fromisoformat lib (replace_Z (m_modifiedTime md))) as [t1|e];
    unfold_state; [|repeat split; apply Hask; reflexivity].
  destruct (fromisoformat lib (replace_Z (remote_modified_time status))) as [t0|e];
    unfold_state; [|repeat split; apply Hask; reflexivity].
  destruct (datetime_gt t1 t0) as [[|]|e]; unfold_state;
    try (repeat split; apply Hask; reflexivity).
  destruct (file_hash lib (fs s) (local_path status)) as [h|e] eqn:Hh; unfold_state;
    [|repeat split; apply Hask; reflexivity].
  rewrite bool_decide_eq_false_2 by (intros ->; apply Hedit; reflexivity).
  unfold_state. repeat split; apply Hask; reflexivity.
Qed.

(** X6.  An iteration of the pull pass is idle when Drive reports the very
    modified time the record holds, be that time well formed or not: one
    metadata request, and nothing shown, downloaded, written or recorded. *)
Theorem pull_idle_on_unchanged_remote_time
    (file_id : string) (status : SyncRecord) (s : State R) (r1 : R) (md : file_meta) :
  is_folder status = false ->
  files_get svc file_id "modifiedTime, name" (remote s) = (r1, Ok md) ->
  m_modifiedTime md = remote_modified_time status ->
  pull_item svc lib file_id status s
  = (set_remote r1 (add_trace (ReqGet file_id "modifiedTime, name") s), Ok tt).
Proof.
  intros Hfile Hget Hsame. unfold pull_item. rewrite Hfile. unfold_m.
  rewrite Hget, Hsame. unfold_state.
  destruct (fromisoformat lib (replace_Z (remote_modified_time status))) as [t|e];
    unfold_state; [|reflexivity].
  unfold datetime_gt. rewrite Bool.eqb_reflx, Z.ltb_irrefl. reflexivity.
Qed.

(** ** One iteration of the push pass *)

(** X7.  What an iteration of the push pass can do.  It raises only while
    hashing, before anything has changed.  Otherwise it ends in one of
    four ways: nothing shown and nothing changed; KONFLIKT; NAHRANI
    SELHALO; NAHRANO.  The record changes in the last case only, and then
    to the three refreshed fields; a failure never leaves a record half
    updated. *)
Theorem push_item_outcomes (file_id : string) (status : SyncRecord) (s : State R) :
  let out := push_item svc lib file_id status s in
  match out.2 with
  | Raise _ => out.1 = s
  | Ok _ =>
      (gui out.1 = gui s /\ sync_status out.1 = sync_status s /\
       trace out.1 = trace s) \/
      (gui out.1 = (gui s ++ [TreeStatus file_id (name status) KONFLIKT])%list /\
       sync_status out.1 = sync_status s) \/
      (gui out.1 = (gui s ++ [TreeStatus file_id (name status) NAHRANI_SELHALO])%list /\
       sync_status out.1 = sync_status s) \/
      (gui out.1 = (gui s ++ [TreeStatus file_id (name status) NAHRANO])%list /\
       exists rec h t,
         dict_get file_id (sync_status s) = Some rec /\
         sync_status out.1 =
           dict_set file_id (pushed rec (clock s) h t) (sync_status s))
  end.
Proof.
  cbv zeta. unfold push_item.
  destruct (is_folder status); [left; repeat split|].
  unfold_m. destruct (fs_exists (local_path status) (fs s)); proj_state;
    [|left; repeat split].
  destruct (file_hash lib (fs s) (local_path status)) as [current|e]; proj_state;
    [|reflexivity].
  destruct (negb (bool_decide (current = local_hash_at_sync status)));
    [|left; repeat split].
  destruct (files_get svc file_id "modifiedTime, name" (remote s)) as [r1 [md|e]];
    unfold_state; [|right; right; left; split; reflexivity].
  destruct (fromisoformat lib (replace_Z (m_modifiedTime md))) as [t1|e];
    unfold_state; [|right; right; left; split; reflexivity].
  destruct (fromisoformat lib (replace_Z (remote_modified_time status))) as [t0|e];
    unfold_state; [|right; right; left; split; reflexivity].
  destruct (datetime_gt t1 t0) as [[|]|e]; unfold_state;
    [right; left; split; reflexivity | | right; right; left; split; reflexivity].
  destruct (fs_read (local_path status) (fs s)) as [content|e]; unfold_state;
    [|right; right; left; split; reflexivity].
  destruct (files_update svc file_id content r1) as [r2 [uploaded|e]];
    unfold_state; [|right; right; left; split; reflexivity].
  destruct (files_get svc file_id "modifiedTime" r2) as [r3 [md'|e]];
    unfold_state; [|right; right; left; split; reflexivity].
  destruct (dict_get file_id (sync_status s)) as [rec|] eqn:Hrec; unfold_state;
    [|right; right; left; split; reflexivity].
  do 2 (rewrite dict_get_set_eq; unfold_state). rewrite !dict_set_set.
  right; right; right. split; [reflexivity|].
  exists rec, current, (m_modifiedTime md'). split; reflexivity.
Qed.

(** X8.  When the upload of an iteration goes through and the metadata
    request that follows it fails, the remote content has been replaced but
    the record is left as it was and NAHRANI SELHALO is shown. *)
Theorem push_stale_after_failed_refresh
    (file_id : string) (status : SyncRecord) (s : State R)
    (content : list Byte.byte) r1 md t1 t0 r2 uploaded r3 e :
  is_folder status = false ->
  fs s !! local_path status = Some (File content) ->
  Some (sha1_hexdigest lib content) <> local_hash_at_sync status ->
  files_get svc file_id "modifiedTime, name" (remote s) = (r1, Ok md) ->
  fromisoformat lib (replace_Z (m_modifiedTime md)) = Ok t1 ->
  fromisoformat lib (replace_Z (remote_modified_time status)) = Ok t0 ->
  datetime_gt t1 t0 = Ok false ->
  files_update svc file_id content r1 = (r2, Ok uploaded) ->
  files_get svc file_id "modifiedTime" r2 = (r3, Raise e) ->
  let out := push_item svc lib file_id status s in
  out.2 = Ok tt /\
  trace out.1 = (trace s ++ [ReqGet file_id "modifiedTime, name";
                             ReqUpdate file_id content;
                             ReqGet file_id "modifiedTime"])%list /\
  remote out.1 = r3 /\
  sync_status out.1 = sync_status s /\
  gui out.1 = (gui s ++ [TreeStatus file_id (name status) NAHRANI_SELHALO])%list.
Proof.
  intros Hfile Hlocal Hne Hget Ht1 Ht0 Hgt Hup Hget'. cbv zeta.
  unfold push_item. rewrite Hfile. unfold_m. unfold fs_exists, file_hash, fs_read.
  rewrite Hlocal. rewrite bool_decide_eq_true_2 by eauto. proj_state.
  rewrite Hlocal. rewrite bool_decide_eq_false_2 by exact Hne. proj_state.
  rewrite Hget. unfold_state. rewrite Ht1, Ht0, Hgt. unfold_state.
  rewrite Hlocal, Hup. unfold_state. rewrite Hget'. unfold_state.
  rewrite <- !app_assoc. repeat split; reflexivity.
Qed.

(** ** Resolving a conflict *)

(** X9.  [upload_worker] never raises and never changes a local file.  It
    ends in one of two ways.  Either all went well: the local bytes were
    uploaded, the record has the hash of those bytes, the modified time
    read after the upload and the current time, the dictionary is saved,
    and the success dialog and NAHRANO are shown.  Or something failed (no
    local file, a request, no record under the id): the failure dialog and
    NAHRANI SELHALO are shown and the dictionary and its saved copy are
    what they were. *)
Theorem resolve_upload_outcomes
    (file_id file_name path : string) (s : State R) :
  let out := _resolve_conflict_upload svc lib file_id file_name path s in
  out.2 = Ok tt /\
  fs out.1 = fs s /\
  ((gui out.1 = (gui s ++ [ShowInfo "Konflikt vyresen" file_name;
                           TreeStatus file_id file_name NAHRANO])%list /\
    status_file out.1 = sync_status out.1 /\
    exists rec content r1 uploaded r2 md,
      dict_get file_id (sync_status s) = Some rec /\
      fs s !! path = Some (File content) /\
      files_update svc file_id content (remote s) = (r1, Ok uploaded) /\
      files_get svc file_id "modifiedTime" r1 = (r2, Ok md) /\
      sync_status out.1 =
        dict_set file_id
          (pushed rec (clock s) (Some (sha1_hexdigest lib content)) (m_modifiedTime md))
          (sync_status s)) \/
   (gui out.1 = (gui s ++ [ShowError "Chyba nahravani" file_name;
                           TreeStatus file_id file_name NAHRANI_SELHALO])%list /\
    sync_status out.1 = sync_status s /\
    status_file out.1 = status_file s)).
Proof.
  cbv zeta. unfold _resolve_conflict_upload. unfold_m. unfold file_hash, fs_read.
  destruct (fs s !! path) as [[content|]|] eqn:Hlocal; unfold_state.
  2:{ rewrite <- app_assoc. repeat split. right. repeat split. }
  2:{ destruct (through_file (fs s) path); unfold_state; rewrite <- app_assoc;
        (repeat split; right; repeat split). }
  destruct (files_update svc file_id content (remote s)) as [r1 [uploaded|e]] eqn:Hup;
    unfold_state.
  2:{ rewrite <- app_assoc. repeat split. right. repeat split. }
  rewrite Hlocal. unfold_state.
  destruct (files_get svc file_id "modifiedTime" r1) as [r2 [md|e]] eqn:Hget;
    unfold_state.
  2:{ rewrite <- app_assoc. repeat split. right. repeat split. }
  destruct (dict_get file_id (sync_status s)) as [rec|] eqn:Hrec; unfold_state.
  2:{ rewrite <- app_assoc. repeat split. right. repeat split. }
  rewrite <- app_assoc. repeat split. left. repeat split.
  exists rec, content, r1, uploaded, r2, md. repeat split; assumption || reflexivity.
Qed.
Ltac since_tac :=
  unfold asked_since; eexists; split;
    [rewrite <- ?app_assoc; reflexivity | reflexivity].

(** X10.  [download_worker] never raises and sends only metadata and
    download requests.  It ends in one of two ways.  Either the record of
    the file now has the remote name and modified time, the given local
    path, the current time and the hash of the file as it is on disk, the
    dictionary is saved, and the success dialog and STAZENO are shown.  Or
    (the metadata request failed, the parent directories could not be made,
    the path could not be hashed, no record under the id) the failure
    dialog and STAZENI SELHALO are shown and the dictionary and its saved
    copy are what they were. *)
Theorem resolve_download_outcomes
    (file_id file_name path : string) (s : State R) :
  let out := _resolve_conflict_download svc lib file_id file_name path s in
  out.2 = Ok tt /\
  asked_since (fun q => is_get q || is_media q) s out.1 /\
  ((gui out.1 = (gui s ++ [ShowInfo "Konflikt vyresen" file_name;
                           TreeStatus file_id file_name STAZENO])%list /\
    status_file out.1 = sync_status out.1 /\
    exists rec r1 md h,
      dict_get file_id (sync_status s) = Some rec /\
      files_get svc file_id "modifiedTime, name" (remote s) = (r1, Ok md) /\
      file_hash lib (fs out.1) path = Ok h /\
      sync_status out.1 =
        dict_set file_id
          {| name := m_name md;
             is_folder := is_folder rec;
             local_path := path;
             last_synced_time := clock s;
             remote_modified_time := m_modifiedTime md;
             local_hash_at_sync := h;
             drive_root_id := drive_root_id rec;
             drive_relative_path := drive_relative_path rec |}
          (sync_status s)) \/
   (gui out.1 = (gui s ++ [ShowError "Chyba stahovani" file_name;
                           TreeStatus file_id file_name STAZENI_SELHALO])%list /\
    sync_status out.1 = sync_status s /\
    status_file out.1 = status_file s)).
Proof.
  cbv zeta. unfold _resolve_conflict_download, download_file, next_chunks. unfold_m.
  destruct (files_get svc file_id "modifiedTime, name" (remote s)) as [r1 [md|e]] eqn:Hget;
    unfold_state.
  2:{ rewrite <- app_assoc. split; [reflexivity|]. split; [since_tac|].
      right. repeat split. }
  destruct (fs_makedirs (os_path_dirname path) (fs s)) as [f1|e1]; unfold_state.
  2:{ rewrite <- app_assoc. split; [reflexivity|]. split; [since_tac|].
      right. repeat split. }
  destruct (fs_open_wb path f1) as [f2|e2]; unfold_state.
  - destruct (media_download svc file_id r1) as [r2 [written [[]|e3]]]; unfold_state.
    all: destruct (file_hash lib (<[path:=File written]> f2) path) as [h|e4] eqn:Hh;
      unfold_state.
    all: try (rewrite <- app_assoc; split; [reflexivity|]; split; [since_tac|];
              right; repeat split; fail).
    all: destruct (dict_get file_id (sync_status s)) as [rec|] eqn:Hrec; unfold_state.
    all: try (rewrite <- app_assoc; split; [reflexivity|]; split; [since_tac|];
              right; repeat split; fail).
    all: rewrite <- app_assoc; split; [reflexivity|]; split; [since_tac|];
      left; repeat split; exists rec, r1, md, h; repeat split; assumption.
  - destruct (file_hash lib f1 path) as [h|e4] eqn:Hh; unfold_state.
    all: try (rewrite <- app_assoc; split; [reflexivity|]; split; [since_tac|];
              right; repeat split; fail).
    all: destruct (dict_get file_id (sync_status s)) as [rec|] eqn:Hrec; unfold_state.
    all: try (rewrite <- app_assoc; split; [reflexivity|]; split; [since_tac|];
              right; repeat split; fail).
    all: rewrite <- app_assoc; split; [reflexivity|]; split; [since_tac|];
      left; repeat split; exists rec, r1, md, h; repeat split; assumption.
Qed.

(** X11.  An iteration of the pull pass never raises and ends in one of
    three ways: nothing shown and no record changed; KONFLIKT shown, with
    no record and no local file changed; STAZENO shown, and then the record
    of the file has the name and the modified time that Drive answered to
    the metadata request of the iteration, the current time and the hash of
    the local file as the download attempt left it. *)
Theorem pull_item_outcomes (file_id : string) (status : SyncRecord) (s : State R) :
  let out := pull_item svc lib file_id status s in
  out.2 = Ok tt /\
  ((gui out.1 = gui s /\ sync_status out.1 = sync_status s) \/
   (gui out.1 = (gui s ++ [TreeStatus file_id (name status) KONFLIKT])%list /\
    sync_status out.1 = sync_status s /\ fs out.1 = fs s) \/
   (exists rec r1 md h,
      files_get svc file_id "modifiedTime, name" (remote s) = (r1, Ok md) /\
      gui out.1 = (gui s ++ [TreeStatus file_id (m_name md) STAZENO])%list /\
      dict_get file_id (sync_status s) = Some rec /\
      file_hash lib (fs out.1) (local_path status) = Ok h /\
      sync_status out.1 =
        dict_set file_id
          {| name := m_name md;
             is_folder := is_folder rec;
             local_path := local_path status;
             last_synced_time := clock s;
             remote_modified_time := m_modifiedTime md;
             local_hash_at_sync := h;
             drive_root_id := drive_root_id rec;
             drive_relative_path := drive_relative_path rec |}
          (sync_status s))).
Proof.
  cbv zeta. unfold pull_item, download_file, next_chunks.
  destruct (is_folder status); [split; [reflexivity|left; split; reflexivity]|].
  unfold_m.
  destruct (files_get svc file_id "modifiedTime, name" (remote s)) as [r1 [md|e]]
    eqn:Hget; unfold_state; [|split; [reflexivity|left; split; reflexivity]].
  destruct (fromisoformat lib (replace_Z (m_modifiedTime md))) as [t1|e];
    unfold_state; [|split; [reflexivity|left; split; reflexivity]].
  destruct (fromisoformat lib (replace_Z (remote_modified_time status))) as [t0|e];
    unfold_state; [|split; [reflexivity|left; split; reflexivity]].
  destruct (datetime_gt t1 t0) as [[|]|e]; unfold_state;
    [ | split; [reflexivity|left; split; reflexivity]
      | split; [reflexivity|left; split; reflexivity]].
  destruct (file_hash lib (fs s) (local_path status)) as [h0|e]; unfold_state;
    [|split; [reflexivity|left; split; reflexivity]].
  destruct (bool_decide (h0 = local_hash_at_sync status)); unfold_state;
    [|split; [reflexivity|right; left; repeat split; reflexivity]].
  destruct (fs_makedirs (os_path_dirname (local_path status)) (fs s)) as [f1|e1];
    unfold_state; [|split; [reflexivity|left; split; reflexivity]].
  destruct (fs_open_wb (local_path status) f1) as [f2|e2]; unfold_state.
  - destruct (media_download svc file_id r1) as [r2 [written [[]|e3]]]; unfold_state.
    all: destruct (file_hash lib (<[local_path status:=File written]> f2)
                     (local_path status)) as [h|e4] eqn:Hh; unfold_state;
      [|split; [reflexivity|left; split; reflexivity]].
    all: destruct (dict_get file_id (sync_status s)) as [rec|] eqn:Hrec; unfold_state;
      [|split; [reflexivity|left; split; reflexivity]].
    all: split; [reflexivity|]; right; right; exists rec, r1, md, h;
      repeat split; assumption.
  - destruct (file_hash lib f1 (local_path status)) as [h|e4] eqn:Hh; unfold_state;
      [|split; [reflexivity|left; split; reflexivity]].
    destruct (dict_get file_id (sync_status s)) as [rec|] eqn:Hrec; unfold_state;
      [|split; [reflexivity|left; split; reflexivity]].
    split; [reflexivity|]. right; right. exists rec, r1, md, h.
    repeat split; assumption.
Qed.

Lemma without_matching_keys (drive_id k : string) (rec : SyncRecord)
    (d : dict SyncRecord) :
  In (k, rec) (without_keys (dict_keys (List.filter (matches_root drive_id) d)) d) ->
  In (k, rec) d /\ k <> drive_id /\ drive_root_id rec <> drive_id.
Proof.
  unfold without_keys. intros [Hin Hk]%List.filter_In. cbn [fst] in Hk.
  assert (Hm : matches_root drive_id (k, rec) = false).
  { destruct (matches_root drive_id (k, rec)) eqn:Hm; [|reflexivity].
    rewrite bool_decide_eq_true_2 in Hk; [discriminate|].
    apply list_elem_of_In.
    apply (in_map fst (List.filter (matches_root drive_id) d) (k, rec)).
    apply List.filter_In. split; assumption. }
  unfold matches_root in Hm. cbn [fst snd] in Hm.
  apply orb_false_elim in Hm as [H1 H2].
  apply bool_decide_eq_false in H1. apply bool_decide_eq_false in H2.
  repeat split; assumption.
Qed.

(** X12.  Untracking a file record whose local path is a directory:
    [os.remove] raises, the exception leaves [_recursively_unsync], and
    nothing has changed; the records stay in the dictionary. *)
Theorem unsync_file_record_on_directory
    (drive_id : string) (status : SyncRecord) (s : State R) :
  dict_get drive_id (sync_status s) = Some status ->
  is_folder status = false ->
  fs s !! local_path status = Some Dir ->
  _recursively_unsync drive_id s = (s, Raise IsADirectoryError).
Proof.
  intros Hrec Hfile Hdir. rewrite unsync_unfold. unfold unsync_local.
  rewrite Hrec, Hfile. unfold fs_exists, fs_remove. rewrite Hdir.
  rewrite bool_decide_eq_true_2 by eauto. reflexivity.
Qed.

(** X13.  Untracking a folder record whose local path is a regular file:
    the failure of [shutil.rmtree] is swallowed, the call returns normally,
    the local files stay as they are, and the records of the root go all
    the same; the dictionary is saved. *)
Theorem unsync_folder_record_on_file
    (drive_id : string) (status : SyncRecord) (s : State R)
    (content : list Byte.byte) :
  dict_get drive_id (sync_status s) = Some status ->
  is_folder status = true ->
  fs s !! local_path status = Some (File content) ->
  let out := _recursively_unsync drive_id s in
  out.2 = Ok tt /\
  fs out.1 = fs s /\
  status_file out.1 = sync_status out.1 /\
  forall k rec, In (k, rec) (sync_status out.1) ->
    In (k, rec) (sync_status s) /\ k <> drive_id /\ drive_root_id rec <> drive_id.
Proof.
  intros Hrec Hfolder Hlocal. cbv zeta. rewrite unsync_unfold. unfold unsync_local.
  rewrite Hrec, Hfolder. unfold fs_exists, fs_rmtree. rewrite Hlocal.
  rewrite bool_decide_eq_true_2 by eauto. proj_state.
  repeat split; try reflexivity; eapply without_matching_keys; eassumption.
Qed.

(** X14.  A monitor round over a dictionary that holds folder records
    only sends no request and changes nothing but the saved copy, which
    becomes the dictionary. *)
Theorem monitor_round_ignores_folders (s : State R) :
  (forall k rec, In (k, rec) (sync_status s) -> is_folder rec = true) ->
  sync_monitor_round svc lib s = (set_status_file (sync_status s) s, Ok tt).
Proof.
  intros Hall.
  assert (Hpush : forall items (s' : State R),
    (forall k rec, In (k, rec) items -> is_folder rec = true) ->
    for_each items (fun kv => push_item svc lib kv.1 kv.2) s' = (s', Ok tt)).
  { induction items as [|[k rec] items IH]; intros s' Hi; [reflexivity|].
    cbn [for_each fst snd]. unfold bind, push_item.
    rewrite (Hi k rec) by (left; reflexivity). unfold ret.
    apply IH. intros k' rec' Hin. apply (Hi k' rec'). right. exact Hin. }
  assert (Hpull : forall items (s' : State R),
    (forall k rec, In (k, rec) items -> is_folder rec = true) ->
    for_each items (fun kv => pull_item svc lib kv.1 kv.2) s' = (s', Ok tt)).
  { induction items as [|[k rec] items IH]; intros s' Hi; [reflexivity|].
    cbn [for_each fst snd]. unfold bind, pull_item.
    rewrite (Hi k rec) by (left; reflexivity). unfold ret.
    apply IH. intros k' rec' Hin. apply (Hi k' rec'). right. exact Hin. }
  unfold sync_monitor_round, check_and_sync_local_changes,
    check_and_sync_remote_changes. unfold_m.
  rewrite (Hpush _ s Hall). unfold_state. rewrite Hpull by exact Hall.
  destruct s; reflexivity.
Qed.
End PassFacts.

(** * Tracking and untracking *)

Section DictMore.
Context {V : Type}.

Lemma dict_set_In (k k' : string) (v v' : V) (d : dict V) :
  In (k', v') (dict_set k v d) -> (k', v') = (k, v) \/ In (k', v') d.
Proof.
  induction d as [|[k0 v0] d IH]; cbn [dict_set].
  - intros [H|[]]. left. symmetry. exact H.
  - destruct (bool_decide (k0 = k)).
    + intros [H|H]; [left; symmetry; exact H | right; right; exact H].
    + intros [H|H]; [right; left; exact H|].
      destruct (IH H) as [Heq|Hin]; [left; exact Heq | right; right; exact Hin].
Qed.

End DictMore.

Section TrackFacts.
Context {R : Type}.
Variable svc : Service R.
Variable lib : Library.

Lemma for_each_raises {S A} (E : exn -> Prop) (xs : list A) (body : A -> M S unit) :
  (forall x s e, (body x s).2 = Raise e -> E e) ->
  forall s e, (for_each xs body s).2 = Raise e -> E e.
Proof.
  intros Hbody. induction xs as [|x xs IH]; intros s e; cbn [for_each].
  - discriminate.
  - unfold bind. destruct (body x s) as [s1 [[]|e1]] eqn:Hx.
    + apply IH.
    + cbn [snd]. intros [= <-]. apply (Hbody x s). rewrite Hx. reflexivity.
Qed.

(** The walker raises nothing but [RecursionError] when its consumer
    never raises. *)
Lemma walk_raises (consume : file_meta -> string -> string -> M (State R) unit) :
  (forall f rel full s, (consume f rel full s).2 = Ok tt) ->
  forall depth drive_id prefix root s e,
    (_recursively_get_folder_content svc depth drive_id prefix root consume s).2
      = Raise e ->
    e = RecursionError.
Proof.
  intros Hcons. induction depth as [|depth IH]; intros drive_id prefix root s e;
    cbn [_recursively_get_folder_content].
  - unfold raise. cbn [snd]. intros [= <-]. reflexivity.
  - unfold_m. destruct (files_list svc drive_id PAGE_SIZE (remote s)) as [r1 [files|e1]];
      unfold_state; [|discriminate].
    apply (for_each_raises (fun e => e = RecursionError)).
    intros f s1 e1. unfold_state.
    specialize (Hcons f (os_path_join prefix (m_name f))
                        (os_path_join SYNC_DIR (os_path_join prefix (m_name f)))
                        (add_yield (f, os_path_join prefix (m_name f),
                                    os_path_join SYNC_DIR (os_path_join prefix (m_name f))) s1)).
    unfold add_yield in Hcons.
    destruct (consume f _ _ _) as [s2 [[]|e2]]; [|discriminate].
    destruct (meta_is_folder f); [apply IH | discriminate].
Qed.

(** As [walk_invariant], for consumers that rely on the local path being
    the relative path below [SYNC_DIR]. *)
Lemma walk_invariant_paths (P : State R -> Prop)
    (consume : file_meta -> string -> string -> M (State R) unit) :
  (forall folder s, P s -> P (list_files_in_folder svc folder s).1) ->
  (forall y s, P s -> P (add_yield y s)) ->
  (forall f rel s, P s -> P (consume f rel (os_path_join SYNC_DIR rel) s).1) ->
  forall depth drive_id prefix root s,
    P s -> P (_recursively_get_folder_content svc depth drive_id prefix root consume s).1.
Proof.
  intros Hlist Hyield Hcons. induction depth as [|depth IH];
    intros drive_id prefix root s Hs; simpl; [exact Hs|].
  apply bind_invariant.
  - apply try_invariant; [|intros; assumption].
    apply bind_invariant; [apply Hlist, Hs | intros; assumption].
  - intros [files|] s1 Hs1; [|exact Hs1].
    apply for_each_invariant; [|exact Hs1]. intros f s2 _ Hs2.
    apply bind_invariant; [apply Hyield, Hs2|]. intros _ s3 Hs3.
    apply bind_invariant; [apply Hcons, Hs3|]. intros _ s4 Hs4.
    destruct (meta_is_folder f); [apply IH, Hs4 | exact Hs4].
Qed.

(** What [download_and_track] leaves behind: it shows nothing; unless it
    returns [True] the dictionary and its saved copy are untouched; when it
    returns [True] it has stored and saved one record, made of its
    arguments. *)
Lemma download_and_track_record
    (file_id file_name : string) (folder : bool) (rel full root : string)
    (s : State R) :
  let out := download_and_track svc lib file_id file_name folder rel full root s in
  gui out.1 = gui s /\
  ((out.2 <> Ok true /\ sync_status out.1 = sync_status s /\
    status_file out.1 = status_file s) \/
   (out.2 = Ok true /\ status_file out.1 = sync_status out.1 /\
    (folder = false -> is_file (fs out.1 !! full) = true) /\
    exists rec, sync_status out.1 = dict_set file_id rec (sync_status s) /\
                name rec = file_name /\ is_folder rec = folder /\
                local_path rec = full /\ drive_root_id rec = root /\
                drive_relative_path rec = rel)).
Proof.
  unfold download_and_track, download_file, next_chunks. unfold_m.
  destruct folder.
  - destruct (fs_makedirs full (fs s)) as [f|e]; unfold_state.
    + split; [reflexivity|]. right. split; [reflexivity|]. split; [reflexivity|].
      split; [discriminate|]. eexists. split; [reflexivity|]. repeat split.
    + split; [reflexivity|]. left. repeat split. discriminate.
  - destruct (files_get svc file_id "modifiedTime" (remote s)) as [r1 [md|e]];
      unfold_state; [|split; [reflexivity|left; repeat split; discriminate]].
    destruct (fs_makedirs (os_path_dirname full) (fs s)) as [f1|e1];
      unfold_state; [|split; [reflexivity|left; repeat split; discriminate]].
    destruct (fs_open_wb full f1) as [f2|e2]; unfold_state;
      [|split; [reflexivity|left; repeat split; discriminate]].
    destruct (media_download svc file_id r1) as [r2 [written [[]|e3]]];
      unfold_state; [|split; [reflexivity|left; repeat split; discriminate]].
    destruct (negb (bool_decide (full = ""))); unfold_state;
      [|split; [reflexivity|left; repeat split; discriminate]].
    destruct (file_hash lib (<[full:=File written]> f2) full) as [h|e4];
      unfold_state; [|split; [reflexivity|left; repeat split; discriminate]].
    split; [reflexivity|]. right. split; [reflexivity|]. split; [reflexivity|].
    split; [intros _; rewrite lookup_insert_eq; reflexivity|].
    eexists. split; [reflexivity|]. repeat split.
Qed.

(** [download_and_track] on a folder: the directory, then the record. *)
Lemma download_and_track_folder
    (file_id file_name rel full root : string) (s : State R) :
  download_and_track svc lib file_id file_name true rel full root s =
  match fs_makedirs full (fs s) with
  | Raise e => (s, Raise e)
  | Ok f =>
      let d := dict_set file_id
                 {| name := file_name; is_folder := true; local_path := full;
                    last_synced_time := clock s; remote_modified_time := "";
                    local_hash_at_sync := Some ""; drive_root_id := root;
                    drive_relative_path := rel |} (sync_status s) in
      (mkState (remote s) f (clock s) d d (current_folder_id s)
               (gui s) (trace s) (yields s), Ok true)
  end.
Proof.
  unfold download_and_track. unfold_m.
  destruct (fs_makedirs full (fs s)); reflexivity.
Qed.

(** X15.  When [download_and_track] returns [False] for a yielded file
    (its metadata request or its download failed), the loop of
    [_start_recursive_sync] still writes SYNCED FILE to the row of the
    file, although no record was made and nothing was saved. *)
Theorem track_yielded_marks_failed_file
    (root : string) (f : file_meta) (rel full : string) (s : State R) :
  meta_is_folder f = false ->
  (download_and_track svc lib (m_id f) (m_name f) false rel full root s).2
    = Ok false ->
  let out := track_yielded svc lib root f rel full s in
  out.2 = Ok tt /\
  sync_status out.1 = sync_status s /\
  status_file out.1 = status_file s /\
  gui out.1 = (gui s ++ [TreeStatus (m_id f) (m_name f) SYNCED_FILE])%list.
Proof.
  intros Hfile Hfalse. cbv zeta. unfold track_yielded. rewrite Hfile.
  pose proof (download_and_track_record (m_id f) (m_name f) false rel full root s)
    as Hrec. cbv zeta in Hrec. unfold_m.
  destruct (download_and_track svc lib (m_id f) (m_name f) false rel full root s)
    as [s1 [b|e]]; proj_state; [|discriminate].
  injection Hfalse as ->.
  destruct Hrec as [Hgui [(_ & Hsame & Hsaved) | (Hbad & _)]]; [|discriminate].
  unfold_state. rewrite Hgui. repeat split; assumption.
Qed.

Lemma track_yielded_returns (root : string) (f : file_meta) (rel full : string)
    (s : State R) :
  (track_yielded svc lib root f rel full s).2 = Ok tt.
Proof.
  unfold track_yielded. unfold_m.
  destruct (download_and_track svc lib (m_id f) (m_name f) (meta_is_folder f)
              rel full root s) as [s1 [b|e]]; [|reflexivity].
  destruct (meta_is_folder f); reflexivity.
Qed.

Lemma track_yielded_gui (root : string) (f : file_meta) (rel full : string)
    (s : State R) :
  exists shown, gui (track_yielded svc lib root f rel full s).1 = (gui s ++ shown)%list.
Proof.
  unfold track_yielded. unfold_m.
  pose proof (download_and_track_record (m_id f) (m_name f) (meta_is_folder f)
                rel full root s) as [Hgui _].
  destruct (download_and_track svc lib (m_id f) (m_name f) (meta_is_folder f)
              rel full root s) as [s1 [b|e]]; proj_state.
  - destruct (meta_is_folder f); unfold_state; rewrite Hgui.
    + exists []. rewrite app_nil_r. reflexivity.
    + eexists. reflexivity.
  - rewrite Hgui. exists []. rewrite app_nil_r. reflexivity.
Qed.

(** The records of the dictionary after [_start_recursive_sync] on [id]:
    old ones, and ones with [Q], for every [Q] that holds of the records
    made of root [id] and of a local path below [SYNC_DIR]. *)
Lemma start_sync_adds (Q : SyncRecord -> Prop)
    (depth : nat) (id folder_name : string) (s : State R) :
  (forall rec, tracked_under id rec -> Q rec) ->
  forall k rec,
    In (k, rec) (sync_status (_start_recursive_sync svc lib depth id folder_name s).1) ->
    In (k, rec) (sync_status s) \/ Q rec.
Proof.
  intros HQ.
  set (P := fun s' : State R =>
         forall k rec, In (k, rec) (sync_status s') ->
                       In (k, rec) (sync_status s) \/ Q rec).
  assert (Htrack : forall file_id file_name folder rel s',
    P s' -> P (download_and_track svc lib file_id file_name folder rel
                 (os_path_join SYNC_DIR rel) id s').1).
  { intros file_id file_name folder rel s' Hs'.
    destruct (download_and_track_record file_id file_name folder rel
                (os_path_join SYNC_DIR rel) id s')
      as [_ [(_ & Hsame & _) | (_ & _ & _ & rec & Hset & _ & _ & Hpath & Hroot & Hrel)]];
      unfold P; intros k rec'.
    - rewrite Hsame. apply Hs'.
    - rewrite Hset. intros [Heq|Hin]%dict_set_In.
      + right. injection Heq as _ ->. apply HQ. split; [exact Hroot|].
        rewrite Hpath, Hrel. reflexivity.
      + apply Hs', Hin. }
  change (P (_start_recursive_sync svc lib depth id folder_name s).1).
  unfold _start_recursive_sync.
  rewrite (bind_ok _ _ s (add_gui (TreeStatus id folder_name SYNCING) s) tt)
    by reflexivity.
  apply bind_invariant.
  { apply Htrack. intros k rec Hin. left. exact Hin. }
  intros _ s1 Hs1. apply bind_invariant.
  { apply walk_invariant_paths; [| | |exact Hs1].
    - intros folder s2 Hs2. unfold P. unfold_m.
      destruct (files_list svc folder PAGE_SIZE (remote s2)) as [r [l|e]]; exact Hs2.
    - intros y s2 Hs2. exact Hs2.
    - intros f rel s2 Hs2. unfold P. rewrite track_yielded_store.
      apply Htrack, Hs2. }
  intros _ s2 Hs2. apply bind_invariant; [exact Hs2|].
  intros _ s3 Hs3. exact Hs3.
Qed.

(** X16.  Every record in the dictionary after [_start_recursive_sync] on
    the folder [id] either was there before, or has [id] as its root and,
    as local path, its relative path below [SYNC_DIR]. *)
Theorem start_sync_records (depth : nat) (id folder_name : string) (s : State R)
    (k : string) (rec : SyncRecord) :
  In (k, rec) (sync_status (_start_recursive_sync svc lib depth id folder_name s).1) ->
  In (k, rec) (sync_status s) \/ tracked_under id rec.
Proof. apply start_sync_adds. intros rec' H. exact H. Qed.

(** X17.  How [_start_recursive_sync] ends.  When the local directory of
    the root cannot be made, the exception of [os.makedirs] leaves the
    worker: the row reads SYNCING and nothing else was done.  Otherwise no
    failed request and no failed download stops it: it either returns
    normally, and SYNCED FOLDER and the completion dialog are what it
    showed last, or raises [RecursionError] from folders nested too deep;
    either way the saved copy is the dictionary. *)
Theorem start_sync_outcome (depth : nat) (id folder_name : string) (s : State R) :
  let out := _start_recursive_sync svc lib depth id folder_name s in
  match fs_makedirs (os_path_join SYNC_DIR folder_name) (fs s) with
  | Raise e => out = (add_gui (TreeStatus id folder_name SYNCING) s, Raise e)
  | Ok _ =>
      status_file out.1 = sync_status out.1 /\
      (out.2 = Raise RecursionError \/
       (out.2 = Ok tt /\
        exists shown,
          gui out.1 =
            (gui s ++ TreeStatus id folder_name SYNCING :: shown ++
               [TreeStatus id folder_name SYNCED_FOLDER;
                ShowInfo "Synchronizace dokoncena" folder_name])%list))
  end.
Proof.
  cbv zeta. unfold _start_recursive_sync. unfold_m.
  rewrite download_and_track_folder. unfold_state.
  destruct (fs_makedirs (os_path_join SYNC_DIR folder_name) (fs s)) as [f1|e1];
    unfold_state; [|reflexivity].
  match goal with
  | |- context [_recursively_get_folder_content svc depth id folder_name id
                  (track_yielded svc lib id) ?s1] => set (s1' := s1)
  end.
  pose proof (walk_raises (track_yielded svc lib id) (track_yielded_returns id)
                depth id folder_name id s1') as Hraise.
  assert (Hgui : exists shown,
    gui (_recursively_get_folder_content svc depth id folder_name id
           (track_yielded svc lib id) s1').1 =
      (gui s ++ TreeStatus id folder_name SYNCING :: shown)%list).
  { apply (walk_invariant svc (fun s' => exists shown,
             gui s' = (gui s ++ TreeStatus id folder_name SYNCING :: shown)%list)).
    - intros folder s2 Hs2. unfold_m.
      destruct (files_list svc folder PAGE_SIZE (remote s2)) as [r [l|e]]; exact Hs2.
    - intros y s2 Hs2. exact Hs2.
    - intros f rel full s2 [shown Hs2].
      destruct (track_yielded_gui id f rel full s2) as [more Hmore].
      exists (shown ++ more)%list. rewrite Hmore, Hs2, <- app_assoc. reflexivity.
    - exists []. subst s1'. proj_state. reflexivity. }
  assert (Hsaved :
    status_file (_recursively_get_folder_content svc depth id folder_name id
                   (track_yielded svc lib id) s1').1 =
    sync_status (_recursively_get_folder_content svc depth id folder_name id
                   (track_yielded svc lib id) s1').1).
  { apply (walk_invariant svc (fun s' => status_file s' = sync_status s')).
    - intros folder s2 Hs2. unfold_m.
      destruct (files_list svc folder PAGE_SIZE (remote s2)) as [r [l|e]]; exact Hs2.
    - intros y s2 Hs2. exact Hs2.
    - intros f rel full s2 Hs2.
      destruct (track_yielded_state svc lib id f rel full s2)
        as (_ & _ & Hstore & Hfile & _). cbv zeta in Hstore, Hfile.
      rewrite Hstore, Hfile.
      destruct (download_and_track_record (m_id f) (m_name f) (meta_is_folder f)
                  rel full id s2) as [_ [(_ & H1 & H2) | (_ & H1 & _)]].
      + rewrite H1, H2. exact Hs2.
      + exact H1.
    - subst s1'. reflexivity. }
  destruct (_recursively_get_folder_content svc depth id folder_name id
              (track_yielded svc lib id) s1') as [s2 [[]|e2]]; proj_state.
  - unfold_state. split; [exact Hsaved|].
    right. split; [reflexivity|]. destruct Hgui as [shown Hgui]. exists shown.
    rewrite Hgui. rewrite <- !app_assoc. reflexivity.
  - split; [exact Hsaved|]. left. rewrite (Hraise e2 eq_refl). reflexivity.
Qed.

(** X18.  Tracking a folder and untracking it again.  Untracking sends no
    request.  If it returns normally, the dictionary, which is saved, holds
    only records that were there before the tracking and that have the
    folder neither as key nor as root.  If it raises, it changed nothing. *)
Theorem track_then_untrack (depth : nat) (id folder_name : string) (s : State R) :
  let tracked := (_start_recursive_sync svc lib depth id folder_name s).1 in
  let out := _recursively_unsync id tracked in
  trace out.1 = trace tracked /\
  remote out.1 = remote tracked /\
  match out.2 with
  | Raise _ => out.1 = tracked
  | Ok _ =>
      status_file out.1 = sync_status out.1 /\
      forall k rec, In (k, rec) (sync_status out.1) ->
        In (k, rec) (sync_status s) /\ k <> id /\ drive_root_id rec <> id
  end.
Proof.
  cbv zeta. rewrite unsync_unfold.
  destruct (unsync_local _ id _) as [f|e]; proj_state; repeat split.
  all: apply without_matching_keys in H as (Hin & Hk & Hroot); try assumption.
  destruct (start_sync_adds (fun r => drive_root_id r = id) depth id folder_name s
              (fun r Hr => proj1 Hr) k rec Hin) as [Hold|Hnew];
    [exact Hold | contradiction].
Qed.



(** X20.  What [download_file] can do.  It raises only when the parent
    directories cannot be made, the state unchanged.  It returns the path
    only when the download ran to its end, the file then holding the bytes
    delivered.  It returns [None] either before any request was sent (the
    file could not be opened), or after a download that failed, and then
    the file is left holding the bytes delivered before the failure. *)
Theorem download_file_outcomes (file_id file_name path : string) (s : State R) :
  let out := download_file svc file_id file_name path s in
  match out.2 with
  | Raise e =>
      out.1 = s /\ fs_makedirs (os_path_dirname path) (fs s) = Raise e
  | Ok (Some p) =>
      p = path /\
      exists r' written,
        media_download svc file_id (remote s) = (r', (written, Ok tt)) /\
        remote out.1 = r' /\
        fs out.1 !! path = Some (File written)
  | Ok None =>
      (trace out.1 = trace s /\ remote out.1 = remote s /\
       fs_makedirs (os_path_dirname path) (fs s) = Ok (fs out.1)) \/
      (exists r' written e,
         media_download svc file_id (remote s) = (r', (written, Raise e)) /\
         remote out.1 = r' /\
         fs out.1 !! path = Some (File written))
  end.
Proof.
  cbv zeta. unfold download_file, next_chunks. unfold_m.
  destruct (fs_makedirs (os_path_dirname path) (fs s)) as [f1|e1]; unfold_state;
    [|split; [destruct s|]; reflexivity].
  destruct (fs_open_wb path f1) as [f2|e2]; unfold_state;
    [|left; repeat split].
  destruct (media_download svc file_id (remote s)) as [r' [written [[]|e3]]];
    unfold_state.
  - split; [reflexivity|]. exists r', written. repeat split. apply lookup_insert_eq.
  - right. exists r', written, e3. repeat split. apply lookup_insert_eq.
Qed.

Lemma for_each_reaches {S A} (P : A -> S -> Prop) (xs : list A)
    (body : A -> M S unit) :
  (forall x s, P x (body x s).1) ->
  (forall x y s, P x s -> P x (body y s).1) ->
  forall s, (for_each xs body s).2 = Ok tt ->
  forall x, In x xs -> P x (for_each xs body s).1.
Proof.
  intros Hown Hkept. induction xs as [|x0 xs IH]; intros s Hok x Hin; [destruct Hin|].
  cbn [for_each] in *. unfold bind in *.
  pose proof (Hown x0 s) as Hx0.
  destruct (body x0 s) as [s1 [[]|e]]; cbn [fst snd] in *; [|discriminate].
  destruct Hin as [<-|Hin].
  - apply (for_each_invariant (P x0)); [|exact Hx0].
    intros y s2 _ Hs2. apply Hkept, Hs2.
  - apply IH; assumption.
Qed.

Lemma track_yielded_keeps_yield (root : string) (f : file_meta) (rel full : string)
    (s : State R) :
  yields (track_yielded svc lib root f rel full s).1 = yields s.
Proof.
  destruct (track_yielded_state svc lib root f rel full s)
    as (_ & _ & _ & _ & _ & Hy). cbv zeta in Hy. rewrite Hy.
  apply (download_and_track_effects svc lib (m_id f) (m_name f) (meta_is_folder f)
           rel full root s (fun _ => True)); intros; exact I.
Qed.

Lemma walk_keeps_yield (y : yielded) (root : string)
    (depth : nat) (drive_id prefix : string) (s : State R) :
  In y (yields s) ->
  In y (yields (_recursively_get_folder_content svc depth drive_id prefix root
                  (track_yielded svc lib root) s).1).
Proof.
  apply (walk_invariant svc (fun s' => In y (yields s'))).
  - intros folder s1 H1. unfold_m.
    destruct (files_list svc folder PAGE_SIZE (remote s1)) as [r [l|e]]; exact H1.
  - intros y' s1 H1. unfold add_yield. proj_state. apply in_or_app. left. exact H1.
  - intros f rel full s1 H1. rewrite track_yielded_keeps_yield. exact H1.
Qed.

(** X21.  When the listing of a folder succeeds and the walk returns
    normally, every listed child has been yielded, with its relative path
    and its local path below [SYNC_DIR]; a failure while tracking one
    child does not keep its siblings from being enumerated. *)
Theorem walk_yields_listed_children
    (depth : nat) (drive_id prefix root : string) (s : State R)
    (r : R) (files : list file_meta) :
  files_list svc drive_id PAGE_SIZE (remote s) = (r, Ok files) ->
  let out := _recursively_get_folder_content svc (S depth) drive_id prefix root
               (track_yielded svc lib root) s in
  out.2 = Ok tt ->
  forall f, In f files ->
    In (f, os_path_join prefix (m_name f),
        os_path_join SYNC_DIR (os_path_join prefix (m_name f))) (yields out.1).
Proof.
  intros Hlist. cbv zeta. cbn [_recursively_get_folder_content].
  rewrite (bind_ok _ _ s (set_remote r (add_trace (ReqList drive_id PAGE_SIZE) s))
             (Some files)) by (unfold_m; rewrite Hlist; reflexivity).
  intros Hok f Hin.
  apply (for_each_reaches
           (fun (f : file_meta) (s' : State R) =>
              In (f, os_path_join prefix (m_name f),
                  os_path_join SYNC_DIR (os_path_join prefix (m_name f))) (yields s')));
    [| |exact Hok|exact Hin].
  - intros x s1.
    rewrite (bind_ok _ _ s1
               (add_yield (x, os_path_join prefix (m_name x),
                           os_path_join SYNC_DIR (os_path_join prefix (m_name x))) s1) tt)
      by reflexivity.
    apply bind_invariant.
    + rewrite track_yielded_keeps_yield. unfold add_yield. proj_state.
      apply in_or_app. right. left. reflexivity.
    + intros _ s2 H2. destruct (meta_is_folder x); [|exact H2].
      apply walk_keeps_yield, H2.
  - intros x y s1 H1.
    apply bind_invariant.
    + unfold add_yield. proj_state. apply in_or_app. left. exact H1.
    + intros _ s2 H2. apply bind_invariant.
      * rewrite track_yielded_keeps_yield. exact H2.
      * intros _ s3 H3. destruct (meta_is_folder y); [|exact H3].
        apply walk_keeps_yield, H3.
Qed.
End TrackFacts.

(** * The further properties at work *)

Module ScenarioFacts.
Import MemDrive Scenarios.

(** A directory sits where the local copy of [report.csv] should be: the round raises and leaves the state as it found it. *)
Lemma monitor_round_stops_on_directory_witness :
  sync_monitor_round service library report_blocked
    = (report_blocked, Raise IsADirectoryError) /\
  sync_status report_blocked = [("r", report_record)].
Proof.
  split; [|reflexivity].
  apply (monitor_round_stops_on_directory service library report_blocked
           report_blocked [] [] "r" report_record).
  - reflexivity.
  - reflexivity.
  - reflexivity.
  - reflexivity.
Defined.

(** [report.csv] edited locally, and newer on Drive. *)
Lemma pull_spares_local_edits_witness :
  let s := report_state T1 [] "edited" in
  let out := pull_item service library "r" report_record s in
  fs out.1 = fs s /\ sync_status out.1 = sync_status s /\ asked_since is_get s out.1.
Proof.
  apply (pull_spares_local_edits service library "r" report_record
           (report_state T1 [] "edited")).
  vm_compute. discriminate.
Defined.

(** [report.csv] edited locally, unchanged on Drive. *)
Lemma pull_idle_on_unchanged_remote_time_witness :
  let s := report_state T0 [] "edited" in
  pull_item service library "r" report_record s =
    (set_remote (report_drive T0 [])
       (add_trace (ReqGet "r" "modifiedTime, name") s), Ok tt).
Proof.
  apply (pull_idle_on_unchanged_remote_time service library "r" report_record
           (report_state T0 [] "edited") (report_drive T0 []) (report_meta T0)).
  - reflexivity.
  - reflexivity.
  - reflexivity.
Defined.

(** The upload of the edited [report.csv] passes, the request after it fails: Drive holds the new content, the record is the old one. *)
Lemma push_stale_after_failed_refresh_witness :
  let s := report_state T0 [Pass; Pass; Fail 0] "edited" in
  let out := push_item service library "r" report_record s in
  out.2 = Ok tt /\
  trace out.1 = [ReqGet "r" "modifiedTime, name";
                 ReqUpdate "r" (bytes "edited");
                 ReqGet "r" "modifiedTime"] /\
  lookup_item (remote out.1) "r" =
    Some (mkItem "r" "report.csv" "text/plain" T2 "root" (bytes "edited") false) /\
  sync_status out.1 = [("r", report_record)] /\
  gui out.1 = [TreeStatus "r" "report.csv" NAHRANI_SELHALO].
Proof.
  cbv zeta.
  destruct (push_stale_after_failed_refresh service library "r" report_record
              (report_state T0 [Pass; Pass; Fail 0] "edited") (bytes "edited")
              (report_drive T0 [Pass; Fail 0]) (report_meta T0)
              (mkDatetime 0 true) (mkDatetime 0 true)
              (mkDrive [mkItem "r" "report.csv" "text/plain" T2 "root"
                          (bytes "edited") false] [Fail 0] T2)
              "r"
              (mkDrive [mkItem "r" "report.csv" "text/plain" T2 "root"
                          (bytes "edited") false] [] T2)
              HttpError)
    as (Hok & Htrace & Hremote & Hstore & Hgui).
  - reflexivity.
  - reflexivity.
  - vm_compute. discriminate.
  - reflexivity.
  - reflexivity.
  - reflexivity.
  - reflexivity.
  - reflexivity.
  - reflexivity.
  - split; [exact Hok|]. split; [exact Htrace|]. split; [rewrite Hremote; reflexivity|].
    split; [exact Hstore | exact Hgui].
Defined.

(** Untracking [report.csv] with a directory in its place. *)
Lemma unsync_file_record_on_directory_witness :
  _recursively_unsync "r" report_blocked = (report_blocked, Raise IsADirectoryError).
Proof.
  apply (unsync_file_record_on_directory "r" report_record report_blocked);
    reflexivity.
Defined.

(** Untracking [Docs] with a regular file in its place: the file stays, the records go. *)
Lemma unsync_folder_record_on_file_witness :
  let out := _recursively_unsync "docs" docs_shadowed in
  out.2 = Ok tt /\
  fs out.1 !! "synced_files/Docs" = Some (File (bytes "x")) /\
  status_file out.1 = sync_status out.1 /\
  forall k rec, In (k, rec) (sync_status out.1) -> k <> "docs".
Proof.
  cbv zeta.
  destruct (unsync_folder_record_on_file "docs" docs_record docs_shadowed (bytes "x"))
    as (Hok & Hfs & Hsaved & Hleft); [reflexivity..|].
  split; [exact Hok|]. split; [rewrite Hfs; reflexivity|]. split; [exact Hsaved|].
  intros k rec Hin. apply (Hleft k rec Hin).
Defined.

(** A round over the records of [Docs] and [Sub]. *)
Lemma monitor_round_ignores_folders_witness :
  sync_monitor_round service library folders_only
    = (set_status_file (sync_status folders_only) folders_only, Ok tt).
Proof.
  apply (monitor_round_ignores_folders service library folders_only).
  intros k rec [[= <- <-]|[[= <- <-]|[]]]; reflexivity.
Defined.

(** The metadata request for [report.csv] fails: SYNCED FILE is shown, nothing is recorded. *)
Lemma track_yielded_marks_failed_file_witness :
  let s := start (report_drive T0 [Fail 0]) in
  let out := track_yielded service library "root" (report_meta T0)
               "report.csv" report_path s in
  out.2 = Ok tt /\
  sync_status out.1 = [] /\
  status_file out.1 = [] /\
  gui out.1 = [TreeStatus "r" "report.csv" SYNCED_FILE].
Proof.
  apply (track_yielded_marks_failed_file service library "root" (report_meta T0)
           "report.csv" report_path (start (report_drive T0 [Fail 0]))).
  - reflexivity.
  - reflexivity.
Defined.

(** The record of [a.txt] after tracking [Docs]. *)
Lemma start_sync_records_witness : tracked_under "docs" a_record.
Proof.
  destruct (start_sync_records service library 10 "docs" "Docs" (start docs_drive)
              "a" a_record) as [[]|Hnew].
  - vm_compute. right. left. reflexivity.
  - exact Hnew.
Defined.


(** The metadata request for [a.txt] fails; [Sub], listed after it, is yielded all the same. *)
Lemma walk_yields_listed_children_witness :
  let out := _recursively_get_folder_content service 10 "docs" "Docs" "docs"
               (track_yielded service library "docs") (start docs_drive_faulty) in
  In (meta_of (folder "sub" "Sub" "docs"), "Docs/Sub", "synced_files/Docs/Sub")
     (yields out.1).
Proof.
  cbv zeta.
  apply (walk_yields_listed_children service library 9 "docs" "Docs" "docs"
           (start docs_drive_faulty)
           (mkDrive (items docs_drive) [Fail 0] T1)
           [meta_of (file "a" "a.txt" "docs" T0 "alpha");
            meta_of (folder "sub" "Sub" "docs")]
           eq_refl).
  - vm_compute. reflexivity.
  - right. left. reflexivity.
Defined.
End ScenarioFacts.
